(** * whisper-writer: the recording session of [src/transcription.py]

    A shallow embedding of [process_transcription] and
    [record_and_transcribe], and the properties of the voice-activity-gated
    recording loop, the session's error boundary and the text
    post-processor. *)

From stdpp Require Import gmap strings list.
From Stdlib Require Import ZArith Lia Ascii.

Open Scope Z_scope.

(** ** Python values and exceptions *)

(** The exception classes the session can meet.  [ExternalError] stands for
    whatever a collaborator (audio device, VAD, file system, remote API,
    local model) raises; all of them derive from [Exception]. *)
Inductive exn : Type :=
| KeyError (key : string)
| TypeError
| AttributeError
| ExternalError (what : string).

(** The dynamically typed values a configuration holds.  Floats are left
    out: no modelled computation depends on one. *)
#[warnings="-register-all"]
Inductive value : Type :=
| VNone
| VBool (b : bool)
| VInt (z : Z)
| VStr (s : string)
| VDict (d : gmap string value).

(** The result of evaluating an expression: a value, a raised exception, or
    [Pending] when the recording loop has not left [while True] within the
    cycles that were observed. *)
Inductive res (A : Type) : Type :=
| Ok (a : A)
| Exc (e : exn)
| Pending.
Arguments Ok {A} a.
Arguments Exc {A} e.
Arguments Pending {A}.

#[global] Instance res_bind : MBind res := fun A B (k : A -> res B) r =>
  match r with
  | Ok a => k a
  | Exc e => Exc e
  | Pending => Pending
  end.

(** What a call of a collaborator (audio device, VAD, file system, remote
    API, local model, thread handle) answers. *)
Inductive answer (A : Type) : Type :=
| Returns (a : A)
| Raises (e : exn).
Arguments Returns {A} a.
Arguments Raises {A} e.

Definition call {A} (a : answer A) : res A :=
  match a with
  | Returns a => Ok a
  | Raises e => Exc e
  end.

(** Python truthiness, as tested by [if v:]. *)
Definition truthy (v : value) : bool :=
  match v with
  | VNone => false
  | VBool b => b
  | VInt z => negb (z =? 0)
  | VStr s => negb (bool_decide (s = ""))
  | VDict d => negb (bool_decide (d = ∅))
  end.

(** [v[key]] for a string key: only a dict can be subscripted that way. *)
Definition subscript (v : value) (key : string) : res value :=
  match v with
  | VDict d =>
      match d !! key with
      | Some x => Ok x
      | None => Exc (KeyError key)
      end
  | _ => Exc TypeError
  end.

(** An operand of integer arithmetic: [int], or [bool] which is an [int]. *)
Definition as_int (v : value) : res Z :=
  match v with
  | VInt z => Ok z
  | VBool b => Ok (Z.b2z b)
  | _ => Exc TypeError
  end.

(** ** Python sequence and string operations *)

(** The position a slice bound [n] denotes in a sequence of [len] items:
    a negative bound counts from the end, and both are clamped. *)
Definition slice_bound (len : nat) (n : Z) : nat :=
  Z.to_nat (if n <? 0 then Z.max 0 (Z.of_nat len + n) else n).

(** [l[:n]] and [l[n:]]. *)
Definition slice_to {A} (l : list A) (n : Z) : list A :=
  take (slice_bound (length l) n) l.

Definition slice_from {A} (l : list A) (n : Z) : list A :=
  drop (slice_bound (length l) n) l.

(** [s.endswith('.')]. *)
Fixpoint endswith_period (s : string) : bool :=
  match s with
  | EmptyString => false
  | String c EmptyString => bool_decide (c = "."%char)
  | String _ s' => endswith_period s'
  end.

(** [s[:-1]]. *)
Fixpoint drop_last (s : string) : string :=
  match s with
  | EmptyString => EmptyString
  | String _ EmptyString => EmptyString
  | String c s' => String c (drop_last s')
  end.

(** [str.lower] on one character.  A character is a code point below 256
    (Latin-1): the cased ones are A-Z and U+00C0..U+00DE without the
    multiplication sign U+00D7, and each lowers by adding 32. *)
Definition lower_char (c : ascii) : ascii :=
  let n := N_of_ascii c in
  if ((65 <=? n) && (n <=? 90) || (192 <=? n) && (n <=? 222) && negb (n =? 215))%N
  then ascii_of_N (n + 32)
  else c.

Fixpoint lower (s : string) : string :=
  match s with
  | EmptyString => EmptyString
  | String c s' => String (lower_char c) (lower s')
  end.

(** The characters [str.strip] removes, among code points below 256. *)
Definition is_space (c : ascii) : bool :=
  let n := N_of_ascii c in
  ((9 <=? n) && (n <=? 13) || (28 <=? n) && (n <=? 32) || (n =? 133) || (n =? 160))%N.

Fixpoint lstrip (s : string) : string :=
  match s with
  | EmptyString => EmptyString
  | String c s' => if is_space c then lstrip s' else s
  end.

Fixpoint rstrip (s : string) : string :=
  match s with
  | EmptyString => EmptyString
  | String c s' =>
      match rstrip s' with
      | EmptyString => if is_space c then EmptyString else String c EmptyString
      | r => String c r
      end
  end.

Definition strip (s : string) : string := rstrip (lstrip s).

(** ** [process_transcription] *)

Definition process_transcription (transcription : string) (config : value) : res string :=
  if truthy config then
    period ← subscript config "remove_trailing_period";
    let transcription :=
      if truthy period && endswith_period transcription
      then drop_last transcription else transcription in
    space ← subscript config "add_trailing_space";
    let transcription :=
      if truthy space then transcription +:+ " " else transcription in
    capitals ← subscript config "remove_capitalization";
    let transcription :=
      if truthy capitals then lower transcription else transcription in
    Ok transcription
  else Ok transcription.

(** ** The recording loop of [record_and_transcribe] *)

Definition frame_duration : Z := 30.
Definition buffer_duration : Z := 300.

(** [sample_rate * frame_duration // 1000], the samples of one frame. *)
Definition frame_size (sample_rate : Z) : Z :=
  (sample_rate * frame_duration) `div` 1000.

(** Line 48: [buffer_duration // frame_duration]; the loop never reads it. *)
Definition num_buffer_frames : Z := buffer_duration `div` frame_duration.

(** Line 49: [silence_duration // frame_duration]. *)
Definition silence_frames (silence_duration : Z) : Z :=
  silence_duration `div` frame_duration.

(** The local variables the loop reads and writes. *)
Record locals := Locals {
  buffer : list Z;
  recording : list Z;
  num_silent_frames : Z;
  exit_reason : string
}.

(** The locals when [while True] is entered. *)
Definition entry : locals :=
  {| buffer := []; recording := []; num_silent_frames := 0; exit_reason := "Unknown" |}.

(** What the surroundings contribute to one pass of the loop body: the
    samples the capture callback appended to [buffer] since the previous
    pass, the answer of [vad.is_speech] should the pass classify a frame,
    and the answers of the two calls of [cancel_flag()] (line 71, and line 74
    where the probe is polled again).  Pushes are laid between passes; a
    push in the middle of a pass is not modelled. *)
Record cycle := Cycle {
  pushed : list Z;
  is_speech : answer bool;
  cancel_flag : bool;
  cancel_flag_again : bool
}.

(** What a pass of the body did with the frame stream. *)
Inductive event : Type :=
| Waited
| Heard (frame : list Z) (speech : bool)
| Refused (frame : list Z).

(** How a pass ends: [continue] (or falling off the end of the body), or
    [break]; [stopped] tells whether [recording_thread.stop()] was called. *)
Inductive signal : Type :=
| Continue
| Break (stopped : bool).

Definition set_exit_reason (st : locals) (reason : string) : locals :=
  {| buffer := buffer st; recording := recording st;
     num_silent_frames := num_silent_frames st; exit_reason := reason |}.

(** Lines 71-80, giving the locals the pass leaves and how it ends.
    [recording_thread] is [None] when no handle was passed and otherwise
    holds what its [stop()] answers. *)
Definition stop_check (sample_rate num_silence_frames : Z)
    (recording_thread : option (answer ())) (st : locals) (c : cycle)
    : locals * res signal :=
  if (num_silence_frames <=? num_silent_frames st) || cancel_flag c then
    if Z.of_nat (length (recording st)) <? sample_rate then (st, Ok Continue)
    else
      let st :=
        if cancel_flag_again c then set_exit_reason st "Hotkey pressed" else st in
      if num_silence_frames <=? num_silent_frames st then
        match recording_thread with
        | Some (Raises e) => (st, Exc e)
        | Some (Returns _) => (set_exit_reason st "Silence", Ok (Break true))
        | None => (set_exit_reason st "Silence", Ok (Break false))
        end
      else (st, Ok (Break false))
  else (st, Ok Continue).

(** Lines 64-69: what a classified frame does to the locals. *)
Definition account (st : locals) (buffer frame : list Z) (speech : bool) : locals :=
  if speech then
    {| buffer := buffer; recording := recording st ++ frame;
       num_silent_frames := 0; exit_reason := exit_reason st |}
  else
    {| buffer := buffer; recording := recording st;
       num_silent_frames :=
         if 0 <? Z.of_nat (length (recording st))
         then num_silent_frames st + 1 else num_silent_frames st;
       exit_reason := exit_reason st |}.

(** One pass of the body of [while True] (lines 57-80). *)
Definition pass (sample_rate num_silence_frames : Z)
    (recording_thread : option (answer ())) (st : locals) (c : cycle)
    : event * (locals * res signal) :=
  let buffer := buffer st ++ pushed c in
  if Z.of_nat (length buffer) <? frame_size sample_rate then
    (Waited, ({| buffer := buffer; recording := recording st;
                 num_silent_frames := num_silent_frames st;
                 exit_reason := exit_reason st |}, Ok Continue))
  else
    let frame := slice_to buffer (frame_size sample_rate) in
    let buffer := slice_from buffer (frame_size sample_rate) in
    match is_speech c with
    | Returns speech =>
        (Heard frame speech,
         stop_check sample_rate num_silence_frames recording_thread
           (account st buffer frame speech) c)
    | Raises e =>
        (Refused frame, ({| buffer := buffer; recording := recording st;
                            num_silent_frames := num_silent_frames st;
                            exit_reason := exit_reason st |}, Exc e))
    end.

(** The loop over the passes that were observed: the events of the passes
    it ran, the locals it ends with, and [Ok stopped] for a [break], [Exc]
    for an exception, [Pending] when it is still running after the last
    observed pass. *)
Fixpoint loop (sample_rate num_silence_frames : Z)
    (recording_thread : option (answer ())) (st : locals) (cycles : list cycle)
    : list event * (locals * res bool) :=
  match cycles with
  | [] => ([], (st, Pending))
  | c :: cycles' =>
      match pass sample_rate num_silence_frames recording_thread st c with
      | (ev, (st', Ok Continue)) =>
          let '(evs, out) :=
            loop sample_rate num_silence_frames recording_thread st' cycles' in
          (ev :: evs, out)
      | (ev, (st', Ok (Break stopped))) => ([ev], (st', Ok stopped))
      | (ev, (st', Exc e)) => ([ev], (st', Exc e))
      | (ev, (st', Pending)) => ([ev], (st', Pending))
      end
  end.

(** [continues st cycles evs st']: from [st], the passes over [cycles] all
    end in [continue], give the events [evs] and leave the locals [st']. *)
Inductive continues (sample_rate num_silence_frames : Z)
    (recording_thread : option (answer ())) : locals -> list cycle -> list event -> locals -> Prop :=
| continues_nil st :
    continues sample_rate num_silence_frames recording_thread st [] [] st
| continues_cons st c ev st1 cycles evs st2 :
    pass sample_rate num_silence_frames recording_thread st c = (ev, (st1, Ok Continue)) ->
    continues sample_rate num_silence_frames recording_thread st1 cycles evs st2 ->
    continues sample_rate num_silence_frames recording_thread st (c :: cycles) (ev :: evs) st2.

(** ** The vocabulary of the specification, over the events of a run *)

(** The frames a run classified as speech, in arrival order. *)
Definition speech_frames (evs : list event) : list (list Z) :=
  omap (fun ev => match ev with Heard frame true => Some frame | _ => None end) evs.

(** Every frame a run popped from the buffer, in arrival order. *)
Definition frames (evs : list event) : list (list Z) :=
  omap (fun ev => match ev with
                  | Heard frame _ | Refused frame => Some frame
                  | Waited => None
                  end) evs.

(** The silence run-length in the specification's words: the count of
    consecutive non-speech frames since the last speech frame (or since the
    start); it resets to 0 on a speech frame. *)
Definition silence_run_length (evs : list event) : Z :=
  fold_left (fun n ev => match ev with
                         | Heard _ true => 0
                         | Heard _ false => n + 1
                         | _ => n
                         end) evs 0.

(** The threshold as the specification's testable property words it: the
    quotient rounded up, which is the quotient when the division is exact. *)
Definition ceil_or_exact (silence_duration frame_duration : Z) : Z :=
  (silence_duration + frame_duration - 1) `div` frame_duration.

(** The three transforms of the post-processor, each under its option. *)
Definition strip_one_trailing_period (enabled : bool) (text : string) : string :=
  if enabled && endswith_period text then drop_last text else text.

Definition append_one_trailing_space (enabled : bool) (text : string) : string :=
  if enabled then text +:+ " " else text.

Definition lowercase (enabled : bool) (text : string) : string :=
  if enabled then lower text else text.

(** ** Invariants of the loop *)

(** The locals agree with the events so far: the recording is the speech
    frames laid end to end, and the counter is the silence run-length once
    something has been recorded, and 0 until then. *)
Definition counted (evs : list event) (st : locals) : Prop :=
  recording st = concat (speech_frames evs) /\
  (recording st <> [] -> num_silent_frames st = silence_run_length evs) /\
  (recording st = [] -> num_silent_frames st = 0).

(** What holds whenever the loop goes round again. *)
Definition running (sample_rate num_silence_frames : Z)
    (evs : list event) (st : locals) : Prop :=
  counted evs st /\
  exit_reason st = "Unknown" /\
  (recording st <> [] ->
   ~ (num_silence_frames <= num_silent_frames st /\
      sample_rate <= Z.of_nat (length (recording st)))).

(** ** The session: [record_and_transcribe] *)

(** What the session can change outside itself: the status queue it was
    handed, the files on disk, and the stack traces [traceback.print_exc]
    has logged.  What it prints is left out. *)
Record world := World {
  status_queue : list (string * string);
  disk : gset string;
  stack_traces : nat
}.

(** The answers of the collaborators during one session; each is called at
    most once. *)
Record collaborators := Collaborators {
  new_vad : answer ();                          (* webrtcvad.Vad(3) *)
  open_stream : answer ();                      (* sd.InputStream(...), entered *)
  query_devices : answer value;                 (* sd.query_devices(stream.device) *)
  close_stream : answer ();                     (* leaving the stream's [with] block *)
  temp_name : string;                           (* the name NamedTemporaryFile picks *)
  create_temp : answer ();                      (* NamedTemporaryFile(suffix='.wav', delete=False) *)
  write_wav : answer ();                        (* wave.open ... writeframes, both files closed *)
  open_audio : answer ();                       (* open(temp_audio_file.name, 'rb') *)
  api_transcribe : answer (gmap string value);  (* openai.Audio.transcribe(...) *)
  whisper_model : answer ();                    (* WhisperModel(...) *)
  local_transcribe : answer (list string);      (* the segment texts of local_model.transcribe *)
  unlink : answer ()                            (* the file system's part of os.remove *)
}.

(** Computations that may raise and that change the world. *)
Definition M (A : Type) : Type := world -> res A * world.

#[global] Instance M_ret : MRet M := fun A (a : A) w => (Ok a, w).

#[global] Instance M_bind : MBind M := fun A B (k : A -> M B) (m : M A) w =>
  match m w with
  | (Ok a, w') => k a w'
  | (Exc e, w') => (Exc e, w')
  | (Pending, w') => (Pending, w')
  end.

Definition lift {A} (r : res A) : M A := fun w => (r, w).

(** [status_queue.put(item)]. *)
Definition put (item : string * string) : M () := fun w =>
  (Ok (), {| status_queue := status_queue w ++ [item]; disk := disk w;
             stack_traces := stack_traces w |}).

(** The file NamedTemporaryFile creates is on disk from then on. *)
Definition named_temporary_file (env : collaborators) : M string := fun w =>
  match create_temp env with
  | Returns _ =>
      (Ok (temp_name env),
       {| status_queue := status_queue w; disk := {[temp_name env]} ∪ disk w;
          stack_traces := stack_traces w |})
  | Raises e => (Exc e, w)
  end.

(** [os.remove(name)]. *)
Definition os_remove (env : collaborators) (name : string) : M () := fun w =>
  match unlink env with
  | Returns _ =>
      if bool_decide (name ∈ disk w) then
        (Ok (), {| status_queue := status_queue w; disk := disk w ∖ {[name]};
                   stack_traces := stack_traces w |})
      else (Exc (ExternalError "FileNotFoundError"), w)
  | Raises e => (Exc e, w)
  end.

(** [with sd.InputStream(...) as stream: body]: the stream is closed when
    the block is left, by [break] or by an exception. *)
Definition with_stream {A} (env : collaborators) (body : M A) : M A := fun w =>
  match open_stream env with
  | Returns _ =>
      match body w with
      | (Pending, w') => (Pending, w')
      | (r, w') =>
          match close_stream env with
          | Returns _ => (r, w')
          | Raises e => (Exc e, w')
          end
      end
  | Raises e => (Exc e, w)
  end.

(** [try: body / except Exception: traceback.print_exc();
    status_queue.put(('error', 'Error'))], after which the function falls
    off its end and returns [None]. *)
Definition try_except (body : M string) : M (option string) := fun w =>
  match body w with
  | (Ok s, w') => (Ok (Some s), w')
  | (Exc _, w') =>
      (Ok None, {| status_queue := status_queue w' ++ [("error", "Error")];
                   disk := disk w'; stack_traces := S (stack_traces w') |})
  | (Pending, w') => (Pending, w')
  end.

(** [result.strip()]: only a [str] has the method. *)
Definition str_strip (v : value) : res string :=
  match v with
  | VStr s => Ok (strip s)
  | _ => Exc AttributeError
  end.

(** [print(...) if config['print_to_terminal'] else '']: the flag is looked
    up first, the arguments of [print] are evaluated only when it is true. *)
Definition print_if {A} (config : value) (arguments : res A) : M () :=
  flag ← lift (subscript config "print_to_terminal");
  if truthy flag then _ ← lift arguments; mret () else mret ().

(** [create_local_model]. *)
Definition create_local_model (env : collaborators) (config : value) : res () :=
  options ← subscript config "local_model_options";
  _ ← subscript options "model";
  options ← subscript config "local_model_options";
  _ ← subscript options "device";
  options ← subscript config "local_model_options";
  _ ← subscript options "compute_type";
  call (whisper_model env).

(** Lines 101-109: transcription by the remote API. *)
Definition transcribe_remote (env : collaborators) (config : value) : res value :=
  api_options ← subscript config "api_options";
  _ ← call (open_audio env);
  _ ← subscript api_options "model";
  _ ← subscript api_options "language";
  _ ← subscript api_options "initial_prompt";
  _ ← subscript api_options "temperature";
  response ← call (api_transcribe env);
  Ok (default VNone (response !! "text")).

(** Lines 111-123: transcription by the local model; [local_model] tells
    whether the caller passed one. *)
Definition transcribe_local (env : collaborators) (config : value)
    (local_model : bool) : M value :=
  _ ← (if local_model then mret ()
       else
         _ ← print_if config (Ok ());
         _ ← lift (create_local_model env config);
         print_if config (Ok ()));
  model_options ← lift (subscript config "local_model_options");
  _ ← lift (subscript model_options "language");
  _ ← lift (subscript model_options "initial_prompt");
  _ ← lift (subscript model_options "condition_on_previous_text");
  _ ← lift (subscript model_options "temperature");
  _ ← lift (subscript model_options "vad_filter");
  segments ← lift (call (local_transcribe env));
  mret (VStr (String.concat "" segments)).

(** Lines 52-86: the capture, which gives the recording as [audio_data]. *)
Definition capture (env : collaborators) (config sample_rate : value)
    (num_silence_frames : Z) (recording_thread : option (answer ()))
    (cycles : list cycle) : M (list Z) :=
  rate ← lift (as_int sample_rate);
  with_stream env (
    device_info ← lift (call (query_devices env));
    _ ← print_if config (subscript device_info "name");
    lift (match snd (loop rate num_silence_frames recording_thread entry cycles) with
          | (st, Ok _) => Ok (recording st)
          | (_, Exc e) => Exc e
          | (_, Pending) => Pending
          end)).

(** Lines 52-135, the body of [try]. *)
Definition session (env : collaborators) (config sample_rate : value)
    (num_silence_frames : Z) (local_model : bool)
    (recording_thread : option (answer ())) (cycles : list cycle) : M string :=
  audio_data ← capture env config sample_rate num_silence_frames recording_thread cycles;
  _ ← print_if config (Ok (length audio_data));
  temp_audio_file ← named_temporary_file env;
  _ ← lift (call (write_wav env));
  _ ← put ("transcribing", "Transcribing...");
  _ ← print_if config (Ok ());
  use_api ← lift (subscript config "use_api");
  result ← (if truthy use_api then lift (transcribe_remote env config)
            else
              _ ← lift (subscript config "use_api");
              transcribe_local env config local_model);
  _ ← os_remove env temp_audio_file;
  _ ← print_if config (str_strip result);
  _ ← put ("idle", "");
  if truthy result then
    text ← lift (str_strip result);
    lift (process_transcription text config)
  else mret "".

(** Lines 38-49, which run before [try]: the configuration reads, the VAD
    and the thresholds. *)
Definition preamble (env : collaborators) (config : value) : res (value * value * Z) :=
  sound_device ← (if truthy config then subscript config "sound_device" else Ok VNone);
  sample_rate ← (if truthy config then subscript config "sample_rate" else Ok (VInt 16000));
  silence_duration ←
    (if truthy config then subscript config "silence_duration" else Ok (VInt 900));
  _ ← call (new_vad env);
  silence_duration ← as_int silence_duration;
  Ok (sound_device, sample_rate, silence_frames silence_duration).

(** [record_and_transcribe(status_queue, cancel_flag, config, local_model,
    recording_thread)].  [Ok (Some s)] returns the string [s], [Ok None] is
    the [None] returned after the handler ran, [Exc e] an exception that
    reaches the caller, [Pending] a call that has not returned. *)
Definition record_and_transcribe (env : collaborators) (config : value)
    (local_model : bool) (recording_thread : option (answer ()))
    (cycles : list cycle) : M (option string) :=
  '(sound_device, sample_rate, num_silence_frames) ← lift (preamble env config);
  try_except
    (session env config sample_rate num_silence_frames local_model recording_thread cycles).

(** ** Reasoning about sessions *)

(** A computation that leaves the world as it found it. *)
Definition pure {A} (m : M A) : Prop :=
  forall w r w', m w = (r, w') -> w' = w.

(** A configuration that enables the three text options as given. *)
Definition options (period space capitals : bool) : value :=
  VDict (<["remove_trailing_period" := VBool period]>
         (<["add_trailing_space" := VBool space]>
         (<["remove_capitalization" := VBool capitals]> ∅))).

(** The world a session leaves when its handler has run. *)
Definition after_handler (w : world) : world :=
  {| status_queue := status_queue w ++ [("error", "Error")];
     disk := disk w; stack_traces := S (stack_traces w) |}.

(** The statuses a session pushes when no exception is raised. *)
Definition statuses_of_success : list (string * string) :=
  [("transcribing", "Transcribing..."); ("idle", "")].

(** ** Sample sessions *)

(** A pass that finds one frame of speech, respectively of silence, in the
    buffer while the cancel flag is not asserted. *)
Definition speech_cycle (sample_rate : Z) : cycle :=
  {| pushed := replicate (Z.to_nat (frame_size sample_rate)) 1;
     is_speech := Returns true; cancel_flag := false; cancel_flag_again := false |}.

Definition silent_cycle (sample_rate : Z) : cycle :=
  {| pushed := replicate (Z.to_nat (frame_size sample_rate)) 0;
     is_speech := Returns false; cancel_flag := false; cancel_flag_again := false |}.

(** The same pass with the cancel flag asserted at both polls. *)
Definition with_hotkey (c : cycle) : cycle :=
  {| pushed := pushed c; is_speech := is_speech c;
     cancel_flag := true; cancel_flag_again := true |}.

(** One frame of speech (30 ms) followed by 30 frames of silence (900 ms). *)
Definition short_utterance (sample_rate : Z) : list cycle :=
  speech_cycle sample_rate :: replicate 30 (silent_cycle sample_rate).

(** 34 frames of speech (1.02 s) followed by 30 frames of silence. *)
Definition utterance (sample_rate : Z) : list cycle :=
  replicate 34 (speech_cycle sample_rate) ++ replicate 30 (silent_cycle sample_rate).

(** The same, the hotkey being pressed during the thirtieth silent frame. *)
Definition hotkey_at_silence (sample_rate : Z) : list cycle :=
  replicate 34 (speech_cycle sample_rate) ++ replicate 29 (silent_cycle sample_rate)
  ++ [with_hotkey (silent_cycle sample_rate)].

(** Three frames of silence and no speech yet. *)
Definition leading_silence (sample_rate : Z) : list cycle :=
  replicate 3 (silent_cycle sample_rate).

(** The runs of the loop over these sessions: at 16 kHz with the default
    silence duration of 900 ms, and at a toy rate of 100 Hz whose frames
    have 3 samples. *)
Definition short_run : list event * (locals * res bool) :=
  loop 16000 (silence_frames 900) None entry (short_utterance 16000).

Definition hotkey_run : list event * (locals * res bool) :=
  loop 16000 (silence_frames 900) (Some (Returns ())) entry (hotkey_at_silence 16000).

Definition toy_run : list event * (locals * res bool) :=
  loop 100 (silence_frames 900) (Some (Returns ())) entry (utterance 100).

Definition toy_short_run : list event * (locals * res bool) :=
  loop 100 (silence_frames 900) None entry (short_utterance 100).

Definition toy_silent_run : list event * (locals * res bool) :=
  loop 100 (silence_frames 900) None entry (leading_silence 100).

(** A complete configuration with the defaults of the application, the
    remote API and the terminal output switched as given. *)
Definition configuration (use_api print_to_terminal : bool) : value :=
  VDict (<["sound_device" := VNone]>
         (<["sample_rate" := VInt 16000]>
         (<["silence_duration" := VInt 900]>
         (<["use_api" := VBool use_api]>
         (<["print_to_terminal" := VBool print_to_terminal]>
         (<["api_options" :=
              VDict (<["model" := VStr "whisper-1"]>
                     (<["language" := VNone]>
                     (<["initial_prompt" := VNone]>
                     (<["temperature" := VInt 0]> ∅))))]>
         (<["local_model_options" :=
              VDict (<["model" := VStr "base"]>
                     (<["device" := VStr "auto"]>
                     (<["compute_type" := VStr "auto"]>
                     (<["language" := VNone]>
                     (<["initial_prompt" := VNone]>
                     (<["condition_on_previous_text" := VBool true]>
                     (<["temperature" := VInt 0]>
                     (<["vad_filter" := VBool false]> ∅))))))))]>
         (<["remove_trailing_period" := VBool true]>
         (<["add_trailing_space" := VBool false]>
         (<["remove_capitalization" := VBool false]> ∅)))))))))).

(** A configuration that lacks [sound_device]. *)
Definition partial_configuration : value :=
  VDict (<["sample_rate" := VInt 16000]> (<["silence_duration" := VInt 900]> ∅)).

(** Collaborators that all answer; the remote API answers [response]. *)
Definition cooperative (response : answer (gmap string value)) : collaborators :=
  {| new_vad := Returns ();
     open_stream := Returns ();
     query_devices := Returns (VDict (<["name" := VStr "Microphone"]> ∅));
     close_stream := Returns ();
     temp_name := "/tmp/tmpk3v9x2.wav";
     create_temp := Returns ();
     write_wav := Returns ();
     open_audio := Returns ();
     api_transcribe := response;
     whisper_model := Returns ();
     local_transcribe := Returns [" Hello"; " world."];
     unlink := Returns () |}.

(** A world with an empty status queue and no file. *)
Definition quiet_world : world :=
  {| status_queue := []; disk := ∅; stack_traces := 0 |}.

(** Collaborators whose remote API cannot be reached, and collaborators
    whose remote API answers without a text field. *)
Definition unreachable_api : collaborators :=
  cooperative (Raises (ExternalError "APIConnectionError")).

Definition textless_api : collaborators :=
  cooperative (Returns ∅).

(** The session of [utterance] in which the remote API fails. *)
Definition api_failure_run : res (option string) * world :=
  record_and_transcribe unreachable_api (configuration true false)
    false None (utterance 16000) quiet_world.

(** The sessions of [utterance] in which the response of the remote API
    has no text field, with and without terminal output. *)
Definition absent_text_run (print_to_terminal : bool) : res (option string) * world :=
  record_and_transcribe textless_api (configuration true print_to_terminal)
    false None (utterance 16000) quiet_world.

(** A session with the local model, one with a partial configuration and
    one without a configuration. *)
Definition local_run : res (option string) * world :=
  record_and_transcribe textless_api (configuration false true)
    false None (utterance 16000) quiet_world.

Definition partial_configuration_run : res (option string) * world :=
  record_and_transcribe textless_api partial_configuration
    false None (utterance 16000) quiet_world.

Definition no_configuration_run : res (option string) * world :=
  record_and_transcribe textless_api VNone false None (utterance 16000) quiet_world.

(** ** More vocabulary for runs and sessions *)

(** A cycle in which the callback delivered exactly one frame, the VAD
    classifies it as non-speech and the cancel flag is not asserted at the
    first poll. *)
Definition silent_frame (sample_rate : Z) (c : cycle) : Prop :=
  Z.of_nat (length (pushed c)) = frame_size sample_rate /\
  is_speech c = Returns false /\
  cancel_flag c = false.

(** The same collaborators with another model constructor and another
    local transcription, respectively with another answer to opening the
    audio file and another remote transcription. *)
Definition with_local_model (env : collaborators) (constructor : answer ())
    (segments : answer (list string)) : collaborators :=
  {| new_vad := new_vad env; open_stream := open_stream env;
     query_devices := query_devices env; close_stream := close_stream env;
     temp_name := temp_name env; create_temp := create_temp env;
     write_wav := write_wav env; open_audio := open_audio env;
     api_transcribe := api_transcribe env;
     whisper_model := constructor; local_transcribe := segments;
     unlink := unlink env |}.

Definition with_remote_api (env : collaborators) (file : answer ())
    (response : answer (gmap string value)) : collaborators :=
  {| new_vad := new_vad env; open_stream := open_stream env;
     query_devices := query_devices env; close_stream := close_stream env;
     temp_name := temp_name env; create_temp := create_temp env;
     write_wav := write_wav env; open_audio := file;
     api_transcribe := response;
     whisper_model := whisper_model env; local_transcribe := local_transcribe env;
     unlink := unlink env |}.

(** The world a session leaves when it returns a string. *)
Definition after_success (w : world) : world :=
  {| status_queue := status_queue w ++ statuses_of_success;
     disk := disk w; stack_traces := stack_traces w |}.

(** A configuration that holds [remove_trailing_period] and nothing else. *)
Definition period_only : gmap string value :=
  <["remove_trailing_period" := VBool true]> ∅.

(** A cycle in which the callback delivered a single sample while the
    hotkey is held. *)
Definition stalled_cycle : cycle :=
  {| pushed := [5]; is_speech := Returns true;
     cancel_flag := true; cancel_flag_again := true |}.

(** The locals at 100 Hz after 34 frames of speech. *)
Definition one_second_recorded : locals :=
  {| buffer := []; recording := replicate 102 1;
     num_silent_frames := 0; exit_reason := "Unknown" |}.

(** A cycle in which the callback delivered one frame at 16 kHz and the
    VAD refuses it. *)
Definition refused_cycle : cycle :=
  {| pushed := replicate 480 0;
     is_speech := Raises (ExternalError "Error while processing frame");
     cancel_flag := false; cancel_flag_again := false |}.

(** Collaborators of the recording and of the file handling that all
    answer, the device query with [device]. *)
Definition answering (env : collaborators) (device : value) : Prop :=
  new_vad env = Returns () /\ open_stream env = Returns () /\
  query_devices env = Returns device /\ close_stream env = Returns () /\
  create_temp env = Returns () /\ write_wav env = Returns () /\
  unlink env = Returns ().

(** A configuration that holds what every session reads: the settings of
    the recording and the two switches, [use_api] being as given. *)
Definition session_configuration (d : gmap string value) (rate duration : Z)
    (remote : bool) : Prop :=
  is_Some (d !! "sound_device") /\
  d !! "sample_rate" = Some (VInt rate) /\
  d !! "silence_duration" = Some (VInt duration) /\
  is_Some (d !! "print_to_terminal") /\
  (exists use_api, d !! "use_api" = Some use_api /\ truthy use_api = remote).

(** The options a remote transcription reads, and those a local
    transcription reads. *)
Definition remote_options (d : gmap string value) : Prop :=
  exists api : gmap string value,
    d !! "api_options" = Some (VDict api) /\
    is_Some (api !! "model") /\ is_Some (api !! "language") /\
    is_Some (api !! "initial_prompt") /\ is_Some (api !! "temperature").

Definition local_options (d : gmap string value) : Prop :=
  exists options : gmap string value,
    d !! "local_model_options" = Some (VDict options) /\
    is_Some (options !! "language") /\ is_Some (options !! "initial_prompt") /\
    is_Some (options !! "condition_on_previous_text") /\
    is_Some (options !! "temperature") /\ is_Some (options !! "vad_filter").

(** The world a session leaves when its handler ran after the temporary
    file of [env] was written and before it was removed. *)
Definition after_leak (env : collaborators) (w : world) : world :=
  {| status_queue := status_queue w ++ [("transcribing", "Transcribing..."); ("error", "Error")];
     disk := {[temp_name env]} ∪ disk w;
     stack_traces := S (stack_traces w) |}.

(** A response of the remote API with a text. *)
Definition spoken : gmap string value :=
  <["text" := VStr " Hello there. "]> ∅.

(** * Properties *)

(** ** Slices *)

Lemma slice_to_from {A} (l : list A) (n : Z) : slice_to l n ++ slice_from l n = l.
Proof. apply take_drop. Qed.

Lemma slice_to_length {A} (l : list A) (n : Z) :
  0 <= n <= Z.of_nat (length l) -> Z.of_nat (length (slice_to l n)) = n.
Proof.
  intros Hn. unfold slice_to, slice_bound.
  rewrite length_take. destruct (Z.ltb_spec n 0); lia.
Qed.

(** ** Events *)

Lemma speech_frames_snoc evs ev :
  speech_frames (evs ++ [ev]) =
  speech_frames evs ++ match ev with Heard frame true => [frame] | _ => [] end.
Proof.
  unfold speech_frames. rewrite omap_app. f_equal.
  destruct ev as [|frame [|]|frame]; reflexivity.
Qed.

Lemma frames_snoc evs ev :
  frames (evs ++ [ev]) =
  frames evs ++ match ev with Heard frame _ | Refused frame => [frame] | Waited => [] end.
Proof.
  unfold frames. rewrite omap_app. f_equal. destruct ev; reflexivity.
Qed.

Lemma silence_run_length_snoc evs ev :
  silence_run_length (evs ++ [ev]) =
  match ev with
  | Heard _ true => 0
  | Heard _ false => silence_run_length evs + 1
  | _ => silence_run_length evs
  end.
Proof. unfold silence_run_length. rewrite fold_left_app. reflexivity. Qed.

(** ** The shape of a run *)

Lemma stop_check_answers rate thr rt st c st' sg :
  stop_check rate thr rt st c = (st', sg) -> sg <> Pending.
Proof.
  unfold stop_check. intros H.
  repeat case_match; simplify_eq; discriminate.
Qed.

Lemma pass_answers rate thr rt st c ev st' sg :
  pass rate thr rt st c = (ev, (st', sg)) -> sg <> Pending.
Proof.
  unfold pass. intros H.
  repeat case_match; simplify_eq; try discriminate.
  eauto using stop_check_answers.
Qed.

(** A run either is still going, all its passes having continued, or it
    was ended by the pass over one cycle [c], by [break] or by an
    exception. *)
Lemma loop_cases rate thr rt cycles : forall st evs st' r,
  loop rate thr rt st cycles = (evs, (st', r)) ->
  (r = Pending /\ continues rate thr rt st cycles evs st') \/
  (exists pre c post evs0 ev st0 sg,
     cycles = pre ++ c :: post /\ evs = evs0 ++ [ev] /\
     continues rate thr rt st pre evs0 st0 /\
     pass rate thr rt st0 c = (ev, (st', sg)) /\
     match sg with
     | Ok Continue | Pending => False
     | Ok (Break stopped) => r = Ok stopped
     | Exc e => r = Exc e
     end).
Proof.
  induction cycles as [|c cycles IH]; intros st evs st' r; simpl.
  - intros [= <- <- <-]. left. split; [reflexivity | constructor].
  - destruct (pass rate thr rt st c) as [ev [st1 sg]] eqn:Hpass.
    destruct sg as [[|stopped]|e|].
    + destruct (loop rate thr rt st1 cycles) as [evs1 [st2 r2]] eqn:Hloop.
      intros [= <- <- <-].
      destruct (IH _ _ _ _ Hloop)
        as [[-> Hc]|(pre & c' & post & evs0 & ev' & st0 & sg & -> & -> & Hc & Hp & Hsg)].
      * left. split; [reflexivity | econstructor; eauto].
      * right.
        exists (c :: pre), c', post, (ev :: evs0), ev', st0, sg.
        repeat split; eauto. econstructor; eauto.
    + intros [= <- <- <-]. right.
      exists [], c, cycles, [], ev, st, (Ok (Break stopped)).
      repeat split; eauto. constructor.
    + intros [= <- <- <-]. right.
      exists [], c, cycles, [], ev, st, (Exc e).
      repeat split; eauto. constructor.
    + exfalso. eapply pass_answers; eauto.
Qed.

(** ** One pass *)

Lemma stop_check_locals rate thr rt st c st' sg :
  stop_check rate thr rt st c = (st', sg) ->
  buffer st' = buffer st /\ recording st' = recording st /\
  num_silent_frames st' = num_silent_frames st.
Proof.
  unfold stop_check, set_exit_reason. intros H.
  repeat case_match; simplify_eq; auto.
Qed.

Lemma counted_ext evs st st' :
  recording st' = recording st ->
  num_silent_frames st' = num_silent_frames st ->
  counted evs st -> counted evs st'.
Proof. unfold counted. intros -> ->. trivial. Qed.

Lemma account_counted evs st buf frame speech :
  counted evs st ->
  counted (evs ++ [Heard frame speech]) (account st buf frame speech).
Proof.
  unfold counted, account. intros (Hrec & Hrun & Hlead).
  rewrite speech_frames_snoc, silence_run_length_snoc, concat_app.
  destruct speech; simpl.
  - rewrite app_nil_r, Hrec. auto.
  - rewrite app_nil_r. split; [assumption|].
    destruct (recording st) as [|x l] eqn:Hl; simpl.
    + split; [congruence | auto].
    + split; [intros _; rewrite Hrun by discriminate; reflexivity | discriminate].
Qed.

Lemma pass_counted rate thr rt evs0 st c ev st' sg :
  counted evs0 st ->
  pass rate thr rt st c = (ev, (st', sg)) ->
  counted (evs0 ++ [ev]) st'.
Proof.
  unfold pass. intros Hc H.
  destruct (_ <? _).
  - injection H as <- <- <-.
    destruct Hc as (Hrec & Hrun & Hlead). unfold counted.
    rewrite speech_frames_snoc, silence_run_length_snoc, app_nil_r. auto.
  - destruct (is_speech c) as [speech|e].
    + injection H as <- H.
      apply stop_check_locals in H as (_ & Hr & Hn).
      eapply counted_ext; [exact Hr | exact Hn |]. apply account_counted, Hc.
    + injection H as <- <- <-.
      destruct Hc as (Hrec & Hrun & Hlead). unfold counted.
      rewrite speech_frames_snoc, silence_run_length_snoc, app_nil_r. auto.
Qed.

Lemma stop_check_continue rate thr rt st c st' :
  stop_check rate thr rt st c = (st', Ok Continue) ->
  st' = st /\
  ~ (thr <= num_silent_frames st /\ rate <= Z.of_nat (length (recording st))).
Proof.
  unfold stop_check, set_exit_reason. intros H.
  repeat case_match; simplify_eq; split; auto; intros [? ?].
  all: repeat match goal with
       | H : (_ <? _) = true |- _ => apply Z.ltb_lt in H
       | H : (_ <=? _) = false |- _ => apply Z.leb_gt in H
       | H : _ || _ = false |- _ => apply orb_false_iff in H as [? ?]
       end; simpl in *; lia.
Qed.

Lemma pass_running rate thr rt evs0 st c ev st' :
  running rate thr evs0 st ->
  pass rate thr rt st c = (ev, (st', Ok Continue)) ->
  running rate thr (evs0 ++ [ev]) st'.
Proof.
  intros (Hc & Hexit & Hgate) H. split; [eapply pass_counted; eauto|].
  revert H. unfold pass.
  destruct (_ <? _).
  - intros [= <- <-]. simpl. auto.
  - destruct (is_speech c) as [speech|e]; [|discriminate].
    intros [= <- H]. apply stop_check_continue in H as [-> Hno].
    split; [destruct speech; exact Hexit | auto].
Qed.

Lemma continues_running rate thr rt st cycles evs st' :
  continues rate thr rt st cycles evs st' ->
  forall evs0, running rate thr evs0 st -> running rate thr (evs0 ++ evs) st'.
Proof.
  induction 1 as [st|st c ev st1 cycles evs st2 Hpass _ IH]; intros evs0 Hrun.
  - rewrite app_nil_r. exact Hrun.
  - replace (evs0 ++ ev :: evs) with ((evs0 ++ [ev]) ++ evs)
      by (rewrite <- app_assoc; reflexivity).
    apply IH. eapply pass_running; eauto.
Qed.

Lemma entry_counted : counted [] entry.
Proof. repeat split; simpl; congruence. Qed.

Lemma entry_running rate thr : running rate thr [] entry.
Proof. repeat split; simpl; congruence. Qed.

(** How a pass that breaks labels the session. *)
Lemma stop_check_break rate thr rt st c st' stopped :
  stop_check rate thr rt st c = (st', Ok (Break stopped)) ->
  rate <= Z.of_nat (length (recording st')) /\
  exit_reason st' =
    (if thr <=? num_silent_frames st' then "Silence"
     else if cancel_flag_again c then "Hotkey pressed" else exit_reason st) /\
  stopped = bool_decide (is_Some rt) && (thr <=? num_silent_frames st') /\
  (num_silent_frames st' < thr -> cancel_flag c = true).
Proof.
  unfold stop_check, set_exit_reason. intros H.
  repeat case_match; simplify_eq; simpl in *.
  all: repeat match goal with
       | H : (_ <? _) = false |- _ => apply Z.ltb_ge in H
       | H : (_ <=? _) = false |- _ => apply Z.leb_gt in H
       | H : (_ <=? _) = true |- _ => apply Z.leb_le in H
       end.
  all: repeat split; auto; try lia.
  all: intros Hlt; simpl in *;
    match goal with
    | H : _ || _ = true |- _ => apply orb_true_iff in H as [H|H]; [apply Z.leb_le in H; lia | exact H]
    end.
Qed.

Lemma pass_break rate thr rt st c ev st' stopped :
  pass rate thr rt st c = (ev, (st', Ok (Break stopped))) ->
  rate <= Z.of_nat (length (recording st')) /\
  exit_reason st' =
    (if thr <=? num_silent_frames st' then "Silence"
     else if cancel_flag_again c then "Hotkey pressed" else exit_reason st) /\
  stopped = bool_decide (is_Some rt) && (thr <=? num_silent_frames st') /\
  (num_silent_frames st' < thr -> cancel_flag c = true).
Proof.
  unfold pass. destruct (_ <? _); [discriminate|].
  destruct (is_speech c) as [speech|e]; [|discriminate].
  intros [= <- H]. apply stop_check_break in H.
  destruct speech; exact H.
Qed.

(** ** Whole runs *)

Lemma continues_length rate thr rt st cycles evs st' :
  continues rate thr rt st cycles evs st' -> length evs = length cycles.
Proof. induction 1; simpl; congruence. Qed.

(** A property that every pass preserves, however it ends, holds of the
    cycles a run consumed, its events and its last locals. *)
Lemma loop_always (P : list cycle -> list event -> locals -> Prop) rate thr rt :
  (forall cs evs st c ev st' sg,
     P cs evs st -> pass rate thr rt st c = (ev, (st', sg)) ->
     P (cs ++ [c]) (evs ++ [ev]) st') ->
  forall cycles st evs st' r cs0 evs0,
    P cs0 evs0 st ->
    loop rate thr rt st cycles = (evs, (st', r)) ->
    P (cs0 ++ take (length evs) cycles) (evs0 ++ evs) st'.
Proof.
  intros Hpass. induction cycles as [|c cycles IH]; intros st evs st' r cs0 evs0 HP; simpl.
  - intros [= <- <- <-]. simpl. rewrite !app_nil_r. exact HP.
  - destruct (pass rate thr rt st c) as [ev [st1 sg]] eqn:Hp.
    specialize (Hpass _ _ _ _ _ _ _ HP Hp).
    destruct sg as [[|stopped]|e|].
    + destruct (loop rate thr rt st1 cycles) as [evs1 [st2 r2]] eqn:Hloop.
      intros [= <- <- <-]. simpl.
      specialize (IH _ _ _ _ _ _ Hpass Hloop).
      rewrite <- !app_assoc in IH. exact IH.
    + intros [= <- <- <-]. simpl. rewrite take_0. exact Hpass.
    + intros [= <- <- <-]. simpl. rewrite take_0. exact Hpass.
    + intros [= <- <- <-]. simpl. rewrite take_0. exact Hpass.
Qed.

Lemma loop_counted rate thr rt cycles evs st r :
  loop rate thr rt entry cycles = (evs, (st, r)) -> counted evs st.
Proof.
  intros H.
  refine (loop_always (fun _ evs st => counted evs st) rate thr rt _
            cycles entry evs st r [] [] _ H).
  - intros. eapply pass_counted; eauto.
  - apply entry_counted.
Qed.

(** First in, first out: the frames a run popped, followed by what is left
    in the buffer, are the samples that were pushed, in their order. *)
Lemma pass_fifo rate thr rt st c ev st' sg :
  pass rate thr rt st c = (ev, (st', sg)) ->
  match ev with Heard frame _ | Refused frame => frame | Waited => [] end ++ buffer st'
  = buffer st ++ pushed c.
Proof.
  unfold pass. destruct (_ <? _).
  - intros [= <- <- <-]. reflexivity.
  - destruct (is_speech c) as [speech|e].
    + intros [= <- H]. apply stop_check_locals in H as (-> & _ & _).
      destruct speech; apply slice_to_from.
    + intros [= <- <- <-]. apply slice_to_from.
Qed.

Lemma loop_fifo rate thr rt cycles evs st r :
  loop rate thr rt entry cycles = (evs, (st, r)) ->
  concat (frames evs) ++ buffer st = concat (pushed <$> take (length evs) cycles).
Proof.
  intros H.
  refine (loop_always
            (fun cs evs st => concat (frames evs) ++ buffer st = concat (pushed <$> cs))
            rate thr rt _ cycles entry evs st r [] [] _ H); [|reflexivity].
  clear. intros cs evs st c ev st' sg IH Hp. apply pass_fifo in Hp.
  rewrite frames_snoc, fmap_app, !concat_app. simpl. rewrite app_nil_r.
  rewrite <- IH, <- !app_assoc. f_equal.
  rewrite <- Hp. destruct ev; simpl; rewrite ?app_nil_r; reflexivity.
Qed.

(** With a sample rate that is not negative every popped frame has
    [frame_size] samples. *)
Lemma pass_frame_size rate thr rt st c ev st' sg :
  0 <= rate ->
  pass rate thr rt st c = (ev, (st', sg)) ->
  match ev with
  | Heard frame _ | Refused frame => Z.of_nat (length frame) = frame_size rate
  | Waited => True
  end.
Proof.
  intros Hrate. unfold pass.
  assert (0 <= frame_size rate)
    by (unfold frame_size, frame_duration; apply Z.div_pos; lia).
  destruct (Z.ltb_spec (Z.of_nat (length (buffer st ++ pushed c))) (frame_size rate)).
  - intros [= <- <- <-]. exact I.
  - destruct (is_speech c) as [speech|e]; intros [= <- _]; apply slice_to_length; lia.
Qed.

Lemma loop_frame_size rate thr rt cycles evs st r :
  0 <= rate ->
  loop rate thr rt entry cycles = (evs, (st, r)) ->
  Forall (fun frame => Z.of_nat (length frame) = frame_size rate) (frames evs).
Proof.
  intros Hrate H.
  refine (loop_always
            (fun _ evs _ =>
               Forall (fun frame => Z.of_nat (length frame) = frame_size rate) (frames evs))
            rate thr rt _ cycles entry evs st r [] [] _ H); [|constructor].
  intros cs evs0 st0 c ev st' sg IH Hp.
  apply (pass_frame_size _ _ _ _ _ _ _ _ Hrate) in Hp.
  rewrite frames_snoc. apply Forall_app. split; [exact IH|].
  destruct ev; repeat constructor; exact Hp.
Qed.

Lemma speech_frames_are_frames evs : speech_frames evs ⊆ frames evs.
Proof.
  induction evs as [|[|frame [|]|frame] evs IH]; simpl.
  - reflexivity.
  - exact IH.
  - unfold speech_frames, frames in *. simpl. apply list_subseteq_skip, IH.
  - unfold speech_frames, frames in *. simpl. apply list_subseteq_cons, IH.
  - unfold speech_frames, frames in *. simpl. apply list_subseteq_cons, IH.
Qed.

Lemma concat_length_uniform (n : Z) (l : list (list Z)) :
  Forall (fun frame => Z.of_nat (length frame) = n) l ->
  Z.of_nat (length (concat l)) = n * Z.of_nat (length l).
Proof.
  induction 1 as [|x l Hx _ IH]; simpl; [lia|].
  rewrite length_app. lia.
Qed.

Lemma triple_eta {A B C} (x : A * (B * C)) : x = (x.1, (x.2.1, x.2.2)).
Proof. destruct x as [a [b c]]. reflexivity. Qed.

Lemma silence_frames_floor silence_duration :
  frame_duration * silence_frames silence_duration <= silence_duration
  < frame_duration * silence_frames silence_duration + frame_duration.
Proof.
  unfold silence_frames, frame_duration.
  pose proof (Z.div_mod silence_duration 30).
  pose proof (Z.mod_pos_bound silence_duration 30). lia.
Qed.

(** A run that left the loop by [break] has recorded at least
    [sample_rate] samples. *)
Lemma loop_break_minimum rate thr rt st cycles evs st' stopped :
  loop rate thr rt st cycles = (evs, (st', Ok stopped)) ->
  rate <= Z.of_nat (length (recording st')).
Proof.
  intros Hloop.
  apply loop_cases in Hloop
    as [[? _]|(pre & c & post & evs0 & ev & st0 & sg & _ & _ & _ & Hp & Hsg)];
    [discriminate|].
  destruct sg as [[|stopped']|e|]; try contradiction; try discriminate.
  apply pass_break in Hp as (Hlen & _). exact Hlen.
Qed.

(** How a pass ends in an exception: the VAD refused the frame, or the
    stop condition was met in full and [recording_thread.stop()] raised
    before the label Silence was assigned. *)
Lemma stop_check_raise rate thr rt st c st' e :
  stop_check rate thr rt st c = (st', Exc e) ->
  rt = Some (Raises e) /\
  thr <= num_silent_frames st' /\
  rate <= Z.of_nat (length (recording st')) /\
  exit_reason st' = (if cancel_flag_again c then "Hotkey pressed" else exit_reason st).
Proof.
  unfold stop_check, set_exit_reason. intros H.
  repeat case_match; simplify_eq; simpl in *.
  all: repeat match goal with
       | H : (_ <? _) = false |- _ => apply Z.ltb_ge in H
       | H : (_ <=? _) = true |- _ => apply Z.leb_le in H
       end.
  all: repeat split; auto.
Qed.

Lemma pass_raise rate thr rt st c ev st' e :
  pass rate thr rt st c = (ev, (st', Exc e)) ->
  ((exists frame, ev = Refused frame) /\ is_speech c = Raises e /\
   recording st' = recording st /\ num_silent_frames st' = num_silent_frames st) \/
  ((exists frame speech, ev = Heard frame speech) /\ rt = Some (Raises e) /\
   thr <= num_silent_frames st' /\
   rate <= Z.of_nat (length (recording st')) /\
   exit_reason st' = (if cancel_flag_again c then "Hotkey pressed" else exit_reason st)).
Proof.
  unfold pass. destruct (_ <? _); [discriminate|].
  destruct (is_speech c) as [speech|e'].
  - intros [= <- H]. right. apply stop_check_raise in H as (? & ? & ? & ?).
    split; [eauto|]. destruct speech; auto.
  - intros [= <- <- <-]. left. eauto.
Qed.

(** ** The claims about the loop *)

(** C1, as amended.  The threshold is the floor of
    [silence_duration / frame_duration].  Once something has been recorded,
    the counter of the loop is the number of consecutive non-speech frames
    since the last speech frame.  The loop leaves with the reason Silence
    exactly when that run-length has reached the threshold and the
    recording holds [sample_rate] samples: a run that is still going has
    not met both; a run that left by [break] holds [sample_rate] samples
    and is labelled Silence if and only if the run-length has reached the
    threshold, a [break] below the threshold being the doing of the cancel
    flag in its last pass; and a run that an exception ended either had
    its last frame refused by the VAD, both not being met, or had met both
    when [recording_thread.stop()] raised, before the label was assigned. *)
Theorem silence_exit silence_duration rate rt cycles evs st r :
  loop rate (silence_frames silence_duration) rt entry cycles = (evs, (st, r)) ->
  recording st <> [] ->
  (frame_duration * silence_frames silence_duration <= silence_duration
   < frame_duration * silence_frames silence_duration + frame_duration) /\
  num_silent_frames st = silence_run_length evs /\
  match r with
  | Ok _ =>
      (exit_reason st = "Silence" <->
       silence_frames silence_duration <= silence_run_length evs) /\
      rate <= Z.of_nat (length (recording st)) /\
      (silence_run_length evs < silence_frames silence_duration ->
       exists c, cycles !! (length evs - 1)%nat = Some c /\ cancel_flag c = true)
  | Pending =>
      ~ (silence_frames silence_duration <= silence_run_length evs /\
         rate <= Z.of_nat (length (recording st)))
  | Exc e =>
      ((exists frame, last evs = Some (Refused frame)) /\
       ~ (silence_frames silence_duration <= silence_run_length evs /\
          rate <= Z.of_nat (length (recording st)))) \/
      ((exists frame speech, last evs = Some (Heard frame speech)) /\
       rt = Some (Raises e) /\
       silence_frames silence_duration <= silence_run_length evs /\
       rate <= Z.of_nat (length (recording st)) /\
       exit_reason st <> "Silence")
  end.
Proof.
  intros Hloop Hrec. split; [apply silence_frames_floor|].
  pose proof (loop_counted _ _ _ _ _ _ _ Hloop) as (_ & Hrun & _).
  specialize (Hrun Hrec). split; [exact Hrun|].
  set (thr := silence_frames silence_duration) in *.
  apply loop_cases in Hloop
    as [[-> Hc]|(pre & c & post & evs0 & ev & st0 & sg & -> & -> & Hc & Hp & Hsg)].
  - apply continues_running with (evs0 := []) in Hc; [|apply entry_running].
    destruct Hc as (_ & _ & Hgate). rewrite <- Hrun. auto.
  - pose proof (continues_length _ _ _ _ _ _ _ Hc) as Hlen0.
    apply continues_running with (evs0 := []) in Hc; [|apply entry_running].
    destruct Hc as (_ & Hexit & Hgate).
    destruct sg as [[|stopped]|e|]; try contradiction; subst r.
    + apply pass_break in Hp as (Hlen & Hreason & _ & Hflag).
      rewrite <- Hrun. split; [|split; [exact Hlen|]].
      * rewrite Hreason, Hexit.
        destruct (Z.leb_spec thr (num_silent_frames st)).
        -- split; [intros _; assumption | reflexivity].
        -- split; [|lia]. destruct (cancel_flag_again c); discriminate.
      * intros Hbelow. exists c. split; [|exact (Hflag Hbelow)].
        rewrite length_app. simpl.
        replace (length evs0 + 1 - 1)%nat with (length pre) by lia.
        apply list_lookup_middle. reflexivity.
    + rewrite <- Hrun, last_snoc.
      apply pass_raise in Hp
        as [([frame ->] & _ & Hr & Hn)|([frame [speech ->]] & Hrt & Hthr & Hlen & Hreason)].
      * left. split; [eauto|].
        rewrite Hr, Hn. apply Hgate. rewrite <- Hr. exact Hrec.
      * right. split; [eauto|]. repeat split; try assumption.
        rewrite Hreason, Hexit. destruct (cancel_flag_again c); discriminate.
Qed.

(** C2.  While the recording holds fewer than [sample_rate] samples the
    loop has not left by [break], and whatever the silence counter and the
    cancel flag say the stop check drops the stop and continues with the
    locals unchanged. *)
Theorem minimum_duration rate thr rt st cycles evs st' r :
  loop rate thr rt st cycles = (evs, (st', r)) ->
  Z.of_nat (length (recording st')) < rate ->
  (forall stopped, r <> Ok stopped) /\
  (forall c, stop_check rate thr rt st' c = (st', Ok Continue)).
Proof.
  intros Hloop Hshort. split.
  - intros stopped ->. apply loop_break_minimum in Hloop. lia.
  - intros c. unfold stop_check.
    apply Z.ltb_lt in Hshort. rewrite Hshort.
    destruct (_ || _); reflexivity.
Qed.

(** C3.  As long as no frame has been classified as speech the recording
    is empty and the silence counter is still 0, however many non-speech
    frames arrived; so the silence half of the stop condition is what it
    was when the loop was entered, which is false for every positive
    threshold, and the loop does not stop. *)
Theorem leading_silence_not_counted rate thr rt cycles evs st r :
  loop rate thr rt entry cycles = (evs, (st, r)) ->
  speech_frames evs = [] ->
  recording st = [] /\ num_silent_frames st = 0 /\
  (thr <=? num_silent_frames st) = (thr <=? num_silent_frames entry) /\
  (0 < thr -> ~ thr <= num_silent_frames st) /\
  (0 < rate -> forall stopped, r <> Ok stopped).
Proof.
  intros Hloop Hnone.
  pose proof (loop_counted _ _ _ _ _ _ _ Hloop) as (Hrec & _ & Hlead).
  rewrite Hnone in Hrec. simpl in Hrec. specialize (Hlead Hrec).
  repeat split; auto; [rewrite Hlead; reflexivity | lia |].
  intros Hrate stopped ->. apply loop_break_minimum in Hloop.
  rewrite Hrec in Hloop. simpl in Hloop. lia.
Qed.

(** C4, as amended.  Silence takes priority: a run that left the loop is
    labelled Silence when the silence counter has reached the threshold,
    whatever the cancel flag says; below the threshold the loop was
    stopped by the cancel flag, and the label is Hotkey pressed when the
    flag is still asserted at the second poll and stays Unknown when it is
    not.  [recording_thread.stop()] was called exactly when a handle was
    passed and the label is Silence. *)
Theorem exit_reason_priority rate thr rt cycles evs st stopped :
  loop rate thr rt entry cycles = (evs, (st, Ok stopped)) ->
  exists c,
    last (take (length evs) cycles) = Some c /\
    exit_reason st =
      (if thr <=? num_silent_frames st then "Silence"
       else if cancel_flag_again c then "Hotkey pressed" else "Unknown") /\
    (num_silent_frames st < thr -> cancel_flag c = true) /\
    stopped = bool_decide (is_Some rt) && bool_decide (exit_reason st = "Silence").
Proof.
  intros Hloop.
  apply loop_cases in Hloop
    as [[? _]|(pre & c & post & evs0 & ev & st0 & sg & -> & -> & Hc & Hp & Hsg)];
    [discriminate|].
  destruct sg as [[|stopped']|e|]; try contradiction; try discriminate.
  injection Hsg as <-. exists c.
  pose proof (continues_length _ _ _ _ _ _ _ Hc) as Hlen.
  apply continues_running with (evs0 := []) in Hc; [|apply entry_running].
  destruct Hc as (_ & Hexit & _).
  apply pass_break in Hp as (_ & Hreason & Hstop & Hflag).
  rewrite Hexit in Hreason.
  split; [|split; [exact Hreason|split; [exact Hflag|]]].
  - rewrite length_app, Hlen. simpl.
    replace (length pre + 1)%nat with (length (pre ++ [c])) by (rewrite length_app; reflexivity).
    replace (pre ++ c :: post) with ((pre ++ [c]) ++ post) by (rewrite <- app_assoc; reflexivity).
    rewrite take_app_length. apply last_snoc.
  - rewrite Hstop, Hreason. f_equal.
    destruct (thr <=? num_silent_frames st); [reflexivity|].
    destruct (cancel_flag_again c); reflexivity.
Qed.

(** C9.  The recording is the frames classified as speech, laid end to end
    in arrival order, and nothing else; the frames are consecutive slices
    of the pushed samples; and with a sample rate that is not negative
    each frame has [frame_size] samples, so that the recording holds
    [frame_size] times the number of speech frames. *)
Theorem recording_is_speech_frames rate thr rt cycles evs st r :
  loop rate thr rt entry cycles = (evs, (st, r)) ->
  recording st = concat (speech_frames evs) /\
  speech_frames evs ⊆ frames evs /\
  concat (frames evs) ++ buffer st = concat (pushed <$> take (length evs) cycles) /\
  (0 <= rate ->
   Forall (fun frame => Z.of_nat (length frame) = frame_size rate) (frames evs) /\
   Z.of_nat (length (recording st)) =
     frame_size rate * Z.of_nat (length (speech_frames evs))).
Proof.
  intros Hloop.
  pose proof (loop_counted _ _ _ _ _ _ _ Hloop) as (Hrec & _ & _).
  split; [exact Hrec|]. split; [apply speech_frames_are_frames|].
  split; [eapply loop_fifo; eauto|].
  intros Hrate.
  pose proof (loop_frame_size _ _ _ _ _ _ _ Hrate Hloop) as Hall.
  split; [exact Hall|].
  rewrite Hrec. apply concat_length_uniform.
  rewrite Forall_forall in *. intros frame Hin.
  apply Hall, speech_frames_are_frames, Hin.
Qed.

(** ** The claims about the loop, at sample sessions *)

Lemma silence_exit_witness :
  recording toy_run.2.1 <> [] /\
  (frame_duration * silence_frames 900 <= 900
   < frame_duration * silence_frames 900 + frame_duration) /\
  num_silent_frames toy_run.2.1 = silence_run_length toy_run.1 /\
  match toy_run.2.2 with
  | Ok _ =>
      (exit_reason toy_run.2.1 = "Silence" <->
       silence_frames 900 <= silence_run_length toy_run.1) /\
      100 <= Z.of_nat (length (recording toy_run.2.1)) /\
      (silence_run_length toy_run.1 < silence_frames 900 ->
       exists c, utterance 100 !! (length toy_run.1 - 1)%nat = Some c /\
                 cancel_flag c = true)
  | Pending =>
      ~ (silence_frames 900 <= silence_run_length toy_run.1 /\
         100 <= Z.of_nat (length (recording toy_run.2.1)))
  | Exc e =>
      ((exists frame, last toy_run.1 = Some (Refused frame)) /\
       ~ (silence_frames 900 <= silence_run_length toy_run.1 /\
          100 <= Z.of_nat (length (recording toy_run.2.1)))) \/
      ((exists frame speech, last toy_run.1 = Some (Heard frame speech)) /\
       Some (Returns ()) = Some (Raises e) /\
       silence_frames 900 <= silence_run_length toy_run.1 /\
       100 <= Z.of_nat (length (recording toy_run.2.1)) /\
       exit_reason toy_run.2.1 <> "Silence")
  end.
Proof.
  split; [vm_compute; discriminate|].
  apply (silence_exit 900 100 (Some (Returns ())) (utterance 100)
           toy_run.1 toy_run.2.1 toy_run.2.2).
  - apply triple_eta.
  - vm_compute; discriminate.
Defined.

(** C1 fails as stated.  A silence duration of 100 ms gives a threshold of
    3 frames, which is neither the exact quotient nor its ceiling 4; and
    at 16 kHz with the default 900 ms, after one speech frame and 30
    consecutive non-speech frames, as many as the threshold, the loop is
    still running. *)
Lemma silence_exit_counterexample :
  silence_frames 100 = 3 /\
  ceil_or_exact 100 frame_duration = 4 /\
  recording short_run.2.1 <> [] /\
  silence_run_length short_run.1 = silence_frames 900 /\
  length short_run.1 = length (short_utterance 16000) /\
  short_run.2.2 = Pending.
Proof. vm_compute. repeat split; discriminate. Qed.

Lemma minimum_duration_witness :
  Z.of_nat (length (recording toy_short_run.2.1)) < 100 /\
  (forall stopped, toy_short_run.2.2 <> Ok stopped) /\
  (forall c, stop_check 100 (silence_frames 900) None toy_short_run.2.1 c
             = (toy_short_run.2.1, Ok Continue)).
Proof.
  split; [vm_compute; reflexivity|].
  apply (minimum_duration 100 (silence_frames 900) None entry (short_utterance 100)
           toy_short_run.1 toy_short_run.2.1 toy_short_run.2.2).
  - apply triple_eta.
  - vm_compute; reflexivity.
Defined.

Lemma leading_silence_not_counted_witness :
  speech_frames toy_silent_run.1 = [] /\
  recording toy_silent_run.2.1 = [] /\ num_silent_frames toy_silent_run.2.1 = 0 /\
  (silence_frames 900 <=? num_silent_frames toy_silent_run.2.1)
  = (silence_frames 900 <=? num_silent_frames entry) /\
  (0 < silence_frames 900 -> ~ silence_frames 900 <= num_silent_frames toy_silent_run.2.1) /\
  (0 < 100 -> forall stopped, toy_silent_run.2.2 <> Ok stopped).
Proof.
  split; [vm_compute; reflexivity|].
  apply (leading_silence_not_counted 100 (silence_frames 900) None (leading_silence 100)
           toy_silent_run.1 toy_silent_run.2.1 toy_silent_run.2.2).
  - apply triple_eta.
  - vm_compute; reflexivity.
Defined.

Lemma exit_reason_priority_witness :
  toy_run = (toy_run.1, (toy_run.2.1, Ok true)) /\
  exists c,
    last (take (length toy_run.1) (utterance 100)) = Some c /\
    exit_reason toy_run.2.1 =
      (if silence_frames 900 <=? num_silent_frames toy_run.2.1 then "Silence"
       else if cancel_flag_again c then "Hotkey pressed" else "Unknown") /\
    (num_silent_frames toy_run.2.1 < silence_frames 900 -> cancel_flag c = true) /\
    true = bool_decide (is_Some (Some (Returns ())))
           && bool_decide (exit_reason toy_run.2.1 = "Silence").
Proof.
  split; [vm_compute; reflexivity|].
  apply (exit_reason_priority 100 (silence_frames 900) (Some (Returns ())) (utterance 100)
           toy_run.1 toy_run.2.1 true).
  vm_compute; reflexivity.
Defined.

(** C4 fails as stated.  At 16 kHz with the default 900 ms, when the cancel
    flag is asserted during the pass whose frame brings the silence
    counter to the threshold, the run is labelled Silence and not Hotkey
    pressed, and the thread handle is told to stop. *)
Lemma exit_reason_priority_counterexample :
  (exists c, last (hotkey_at_silence 16000) = Some c /\
             cancel_flag c = true /\ cancel_flag_again c = true) /\
  length hotkey_run.1 = length (hotkey_at_silence 16000) /\
  hotkey_run.2.2 = Ok true /\
  exit_reason hotkey_run.2.1 = "Silence" /\
  exit_reason hotkey_run.2.1 <> "Hotkey pressed".
Proof.
  split; [eexists; vm_compute; repeat split; reflexivity|].
  vm_compute. repeat split; discriminate.
Qed.

Lemma recording_is_speech_frames_witness :
  toy_run = (toy_run.1, (toy_run.2.1, toy_run.2.2)) /\
  recording toy_run.2.1 = concat (speech_frames toy_run.1) /\
  speech_frames toy_run.1 ⊆ frames toy_run.1 /\
  concat (frames toy_run.1) ++ buffer toy_run.2.1
  = concat (pushed <$> take (length toy_run.1) (utterance 100)) /\
  (0 <= 100 ->
   Forall (fun frame => Z.of_nat (length frame) = frame_size 100) (frames toy_run.1) /\
   Z.of_nat (length (recording toy_run.2.1)) =
     frame_size 100 * Z.of_nat (length (speech_frames toy_run.1))).
Proof.
  split; [apply triple_eta|].
  apply (recording_is_speech_frames 100 (silence_frames 900) (Some (Returns ())) (utterance 100)
           toy_run.1 toy_run.2.1 toy_run.2.2).
  apply triple_eta.
Defined.

(** ** The post-processor *)

Lemma endswith_period_app text : endswith_period (text +:+ ".") = true.
Proof.
  induction text as [|c text IH]; [reflexivity|].
  simpl. destruct (text +:+ ".") eqn:E; [|exact IH].
  destruct text; discriminate.
Qed.

Lemma drop_last_app text c : drop_last (text +:+ String c "") = text.
Proof.
  induction text as [|c' text IH]; [reflexivity|].
  simpl. destruct (text +:+ String c "") eqn:E.
  - destruct text; discriminate.
  - rewrite IH. reflexivity.
Qed.

(** Stripping removes exactly one trailing period, and nothing from a text
    that does not end in one. *)
Lemma strip_one_trailing_period_spec text :
  strip_one_trailing_period true (text +:+ ".") = text /\
  (endswith_period text = false -> strip_one_trailing_period true text = text).
Proof.
  unfold strip_one_trailing_period. split.
  - rewrite endswith_period_app. apply drop_last_app.
  - intros ->. reflexivity.
Qed.

Lemma process_transcription_no_config text config :
  truthy config = false -> process_transcription text config = Ok text.
Proof. unfold process_transcription. intros ->. reflexivity. Qed.

(** C6.  With the three options present in the configuration the
    post-processor is the composition, in this order, of stripping one
    trailing period, appending one space and lowercasing, each under its
    option; and it gives the three results the specification lists. *)
Theorem process_transcription_order :
  (forall text (d : gmap string value) period space capitals,
     d !! "remove_trailing_period" = Some period ->
     d !! "add_trailing_space" = Some space ->
     d !! "remove_capitalization" = Some capitals ->
     process_transcription text (VDict d) =
     Ok (lowercase (truthy capitals)
           (append_one_trailing_space (truthy space)
              (strip_one_trailing_period (truthy period) text)))) /\
  process_transcription "Hello." (options true false false) = Ok "Hello" /\
  process_transcription "hi" (options false true false) = Ok "hi " /\
  process_transcription "Hi There" (options false false true) = Ok "hi there".
Proof.
  split; [|repeat split; vm_compute; reflexivity].
  intros text d period space capitals Hp Hs Hc.
  unfold process_transcription, subscript. simpl.
  assert (d <> ∅) as Hne by (intros ->; rewrite lookup_empty in Hp; discriminate).
  rewrite bool_decide_eq_false_2 by exact Hne. simpl.
  rewrite Hp. simpl. rewrite Hs. simpl. rewrite Hc. reflexivity.
Qed.

Lemma process_transcription_order_witness :
  (<["remove_trailing_period" := VBool true]>
     (<["add_trailing_space" := VBool true]>
        (<["remove_capitalization" := VBool true]> (∅ : gmap string value))))
    !! "remove_trailing_period" = Some (VBool true) /\
  process_transcription "Hello There." (options true true true) = Ok "hello there ".
Proof.
  split; [vm_compute; reflexivity|].
  apply (proj1 process_transcription_order "Hello There." _
           (VBool true) (VBool true) (VBool true)); vm_compute; reflexivity.
Defined.

(** ** Sessions at sample inputs *)

Example local_run_transcribes :
  local_run = (Ok (Some "Hello world"),
               {| status_queue := statuses_of_success; disk := ∅; stack_traces := 0 |}).
Proof. vm_compute. reflexivity. Qed.

(** ** Computations that leave the world alone *)

Lemma bind_inv {A B} (m : M A) (k : A -> M B) w r w' :
  (m ≫= k) w = (r, w') ->
  (exists a w1, m w = (Ok a, w1) /\ k a w1 = (r, w')) \/
  (exists e, m w = (Exc e, w') /\ r = Exc e) \/
  (m w = (Pending, w') /\ r = Pending).
Proof.
  unfold mbind, M_bind. destruct (m w) as [[a|e|] w1].
  - intros H. left. eauto.
  - intros [= <- <-]. right. left. eauto.
  - intros [= <- <-]. right. right. eauto.
Qed.

Lemma pure_lift {A} (r : res A) : pure (lift r).
Proof. intros w r' w' [= _ <-]. reflexivity. Qed.

Lemma pure_ret {A} (a : A) : pure (mret a : M A).
Proof. intros w r' w' [= _ <-]. reflexivity. Qed.

Lemma pure_bind {A B} (m : M A) (k : A -> M B) :
  pure m -> (forall a, pure (k a)) -> pure (m ≫= k).
Proof.
  intros Hm Hk w r w' H.
  apply bind_inv in H as [(a & w1 & H1 & H2)|[(e & H1 & _)|(H1 & _)]]; eauto.
  apply Hm in H1 as ->. eapply Hk; eauto.
Qed.

Lemma pure_if {A} (b : bool) (m1 m2 : M A) :
  pure m1 -> pure m2 -> pure (if b then m1 else m2).
Proof. destruct b; trivial. Qed.

Lemma pure_with_stream {A} env (body : M A) : pure body -> pure (with_stream env body).
Proof.
  intros Hb w r w'. unfold with_stream.
  destruct (open_stream env); [|intros [= _ <-]; reflexivity].
  destruct (body w) as [r1 w1] eqn:E. apply Hb in E as ->.
  destruct r1; destruct (close_stream env); intros [= _ <-]; reflexivity.
Qed.

Create HintDb pure.

#[local] Hint Resolve pure_lift pure_ret pure_bind pure_if pure_with_stream : pure.

Lemma pure_print_if {A} config (arguments : res A) : pure (print_if config arguments).
Proof. unfold print_if. auto 10 with pure. Qed.

#[local] Hint Resolve pure_print_if : pure.

Lemma pure_capture env config sample_rate thr rt cycles :
  pure (capture env config sample_rate thr rt cycles).
Proof. unfold capture. auto 10 with pure. Qed.

Lemma pure_transcribe_local env config local_model :
  pure (transcribe_local env config local_model).
Proof. unfold transcribe_local. auto 20 with pure. Qed.

#[local] Hint Resolve pure_capture pure_transcribe_local : pure.

(** ** What a session does to the world *)

Ltac peel H :=
  let a := fresh "a" in
  let w1 := fresh "w" in
  let e := fresh "e" in
  let E := fresh "E" in
  apply bind_inv in H as [(a & w1 & E & H)|[(e & E & ->)|(E & ->)]].

Ltac unchanged E :=
  match type of E with
  | ?m ?w = (_, ?w1) =>
      let P := fresh "P" in
      assert (pure m) as P by auto 20 with pure;
      apply P in E; subst w1
  end.

Lemma named_temporary_file_inv env w r w1 :
  named_temporary_file env w = (r, w1) ->
  (r = Ok (temp_name env) /\
   w1 = {| status_queue := status_queue w; disk := {[temp_name env]} ∪ disk w;
           stack_traces := stack_traces w |}) \/
  ((exists e, r = Exc e) /\ w1 = w).
Proof.
  unfold named_temporary_file. destruct (create_temp env); intros [= <- <-]; eauto.
Qed.

Lemma os_remove_inv env name w r w1 :
  os_remove env name w = (r, w1) ->
  (r = Ok () /\
   w1 = {| status_queue := status_queue w; disk := disk w ∖ {[name]};
           stack_traces := stack_traces w |}) \/
  ((exists e, r = Exc e) /\ w1 = w).
Proof.
  unfold os_remove. destruct (unlink env); [destruct (bool_decide _)|];
    intros [= <- <-]; eauto.
Qed.

Lemma remove_created (name : string) (files : gset string) :
  name ∉ files -> ({[name]} ∪ files) ∖ {[name]} = files.
Proof.
  intros Hfresh. apply set_eq. intros x.
  rewrite elem_of_difference, elem_of_union, elem_of_singleton. split.
  - intros [[->|Hx] Hne]; [contradiction Hne; reflexivity | exact Hx].
  - intros Hx. split; [right; exact Hx | intros ->; contradiction].
Qed.

Ltac finish l :=
  simpl; split; [reflexivity|]; split;
  [ exists l; split; [rewrite <- ?app_assoc, ?app_nil_r; reflexivity|];
    split; [eexists; reflexivity | first [reflexivity | discriminate]]
  | intros Hfresh;
    first [ left; reflexivity
          | right; split; [reflexivity | discriminate]
          | left; apply remove_created, Hfresh ] ].

Lemma session_world env config sample_rate thr local_model rt cycles w r w' :
  session env config sample_rate thr local_model rt cycles w = (r, w') ->
  stack_traces w' = stack_traces w /\
  (exists l, status_queue w' = status_queue w ++ l /\
             l `prefix_of` statuses_of_success /\
             (forall s, r = Ok s -> l = statuses_of_success)) /\
  (temp_name env ∉ disk w ->
   disk w' = disk w \/
   (disk w' = {[temp_name env]} ∪ disk w /\ forall s, r <> Ok s)).
Proof.
  intros H. unfold session in H.
  peel H; [|unchanged E; finish (@nil (string * string))..]. unchanged E.
  peel H; [|unchanged E; finish (@nil (string * string))..]. unchanged E.
  peel H.
  2,3: apply named_temporary_file_inv in E as [[? _]|[_ ->]]; try discriminate;
       finish (@nil (string * string)).
  apply named_temporary_file_inv in E as [[[= ->] ->]|[[e ?] _]]; [|discriminate].
  peel H; [|unchanged E; finish (@nil (string * string))..]. unchanged E.
  peel H; [|discriminate..]. injection E as _ <-.
  peel H; [|unchanged E; finish [("transcribing", "Transcribing...")]..]. unchanged E.
  peel H; [|unchanged E; finish [("transcribing", "Transcribing...")]..]. unchanged E.
  peel H; [|unchanged E; finish [("transcribing", "Transcribing...")]..]. unchanged E.
  peel H.
  2,3: apply os_remove_inv in E as [[? _]|[_ ->]]; try discriminate;
       finish [("transcribing", "Transcribing...")].
  apply os_remove_inv in E as [[_ ->]|[[e ?] _]]; [|discriminate].
  peel H; [|unchanged E; finish [("transcribing", "Transcribing...")]..]. unchanged E.
  peel H; [|discriminate..]. injection E as _ <-.
  unchanged H. simpl.
  split; [reflexivity|]. split.
  - exists statuses_of_success. rewrite <- app_assoc.
    split; [reflexivity|]. split; [reflexivity|]. reflexivity.
  - intros Hfresh. left. apply remove_created, Hfresh.
Qed.


Lemma record_and_transcribe_unfold env config local_model rt cycles w :
  record_and_transcribe env config local_model rt cycles w =
  match preamble env config with
  | Ok (_, sample_rate, thr) =>
      try_except (session env config sample_rate thr local_model rt cycles) w
  | Exc e => (Exc e, w)
  | Pending => (Pending, w)
  end.
Proof.
  unfold record_and_transcribe, mbind, M_bind, lift.
  destruct (preamble env config) as [[[? ?] ?]|e|]; reflexivity.
Qed.

(** On the path without an exception the temporary file is gone when the
    session returns. *)
Lemma temp_file_removed_on_success env config local_model rt cycles w s w' :
  record_and_transcribe env config local_model rt cycles w = (Ok (Some s), w') ->
  temp_name env ∉ disk w ->
  temp_name env ∉ disk w'.
Proof.
  rewrite record_and_transcribe_unfold.
  destruct (preamble env config) as [[[sd sr] thr]|e|]; [|discriminate..].
  unfold try_except.
  destruct (session env config sr thr local_model rt cycles w) as [[s'|e|] w1] eqn:E;
    [|discriminate..].
  intros [= <- <-] Hfresh.
  apply session_world in E as (_ & _ & Hdisk).
  destruct (Hdisk Hfresh) as [->|[_ Hno]]; [exact Hfresh|].
  exfalso. eapply Hno. reflexivity.
Qed.

(** ** The claims about the session *)

(** C7, as amended.  Once the configuration reads and the set-up before
    [try] have succeeded, no exception reaches the caller: an exception
    raised anywhere in the body is caught, one stack trace is logged, the
    terminal error pair is pushed to the status queue and [None] is
    returned; without an exception a string is returned, no error pair is
    pushed and no trace is logged. *)
Theorem error_boundary env config local_model rt cycles w sound_device sample_rate thr r w' :
  preamble env config = Ok (sound_device, sample_rate, thr) ->
  record_and_transcribe env config local_model rt cycles w = (r, w') ->
  match session env config sample_rate thr local_model rt cycles w with
  | (Ok s, w1) =>
      r = Ok (Some s) /\ w' = w1 /\
      status_queue w' = status_queue w ++ statuses_of_success /\
      stack_traces w' = stack_traces w
  | (Exc e, w1) =>
      r = Ok None /\ w' = after_handler w1 /\
      (exists l, l `prefix_of` statuses_of_success /\
                 status_queue w' = status_queue w ++ l ++ [("error", "Error")]) /\
      stack_traces w' = S (stack_traces w)
  | (Pending, w1) => r = Pending /\ w' = w1
  end.
Proof.
  intros Hpre. rewrite record_and_transcribe_unfold, Hpre. unfold try_except.
  destruct (session env config sample_rate thr local_model rt cycles w) as [[s|e|] w1] eqn:E;
    intros [= <- <-].
  - apply session_world in E as (Htr & (l & Hl & _ & Hok) & _).
    rewrite (Hok s eq_refl) in Hl. auto.
  - apply session_world in E as (Htr & (l & Hl & Hpref & _) & _).
    repeat split.
    + exists l. split; [exact Hpref|]. simpl. rewrite Hl, <- app_assoc. reflexivity.
    + simpl. rewrite Htr. reflexivity.
  - auto.
Qed.

(** C10.  With a falsy configuration the fallback values are assigned, but
    [config['print_to_terminal']] raises; the call never returns a string,
    and when the VAD can be built it returns [None] with the error pair
    pushed and a stack trace logged, without having looked at a frame. *)
Theorem falsy_config_never_transcribes env config local_model rt cycles w :
  truthy config = false ->
  (forall u, new_vad env = Returns u ->
             preamble env config = Ok (VNone, VInt 16000, silence_frames 900)) /\
  (exists e, subscript config "print_to_terminal" = Exc e) /\
  (forall s, (record_and_transcribe env config local_model rt cycles w).1 <> Ok (Some s)) /\
  (forall u, new_vad env = Returns u ->
             record_and_transcribe env config local_model rt cycles w
             = (Ok None, after_handler w)).
Proof.
  intros Hfalsy.
  assert (exists e, subscript config "print_to_terminal" = Exc e) as [e He].
  { destruct config as [| | | |d]; simpl; eauto.
    simpl in Hfalsy. apply negb_false_iff, bool_decide_eq_true in Hfalsy as ->.
    rewrite lookup_empty. eauto. }
  assert (forall u, new_vad env = Returns u ->
            record_and_transcribe env config local_model rt cycles w
            = (Ok None, after_handler w)) as Hrun.
  { intros u Hvad. rewrite record_and_transcribe_unfold.
    unfold preamble. rewrite Hfalsy, Hvad. simpl.
    unfold try_except, session, capture, with_stream, print_if.
    unfold mbind, M_bind, lift. simpl.
    destruct (open_stream env); [|reflexivity].
    destruct (query_devices env) as [device_info|e']; simpl.
    - rewrite He. destruct (close_stream env); reflexivity.
    - destruct (close_stream env); reflexivity. }
  split; [|split; [eauto|split; [|exact Hrun]]].
  - intros u Hvad. unfold preamble. rewrite Hfalsy, Hvad. reflexivity.
  - intros s. destruct (new_vad env) as [u|e'] eqn:Hvad.
    + rewrite (Hrun u eq_refl). discriminate.
    + rewrite record_and_transcribe_unfold. unfold preamble.
      rewrite Hfalsy, Hvad. discriminate.
Qed.

(** C7 fails as stated.  With a configuration that has no [sound_device]
    the read on line 38, which is outside [try], raises [KeyError]: the
    exception reaches the caller, nothing is pushed to the status queue
    and no stack trace is logged. *)
Lemma error_boundary_counterexample :
  truthy partial_configuration = true /\
  partial_configuration_run = (Exc (KeyError "sound_device"), quiet_world).
Proof. vm_compute. split; reflexivity. Qed.

Lemma error_boundary_witness :
  preamble unreachable_api (configuration true false)
  = Ok (VNone, VInt 16000, silence_frames 900) /\
  match session unreachable_api (configuration true false) (VInt 16000)
          (silence_frames 900) false None (utterance 16000) quiet_world with
  | (Ok s, w1) =>
      api_failure_run.1 = Ok (Some s) /\ api_failure_run.2 = w1 /\
      status_queue api_failure_run.2 = status_queue quiet_world ++ statuses_of_success /\
      stack_traces api_failure_run.2 = stack_traces quiet_world
  | (Exc e, w1) =>
      api_failure_run.1 = Ok None /\ api_failure_run.2 = after_handler w1 /\
      (exists l, l `prefix_of` statuses_of_success /\
                 status_queue api_failure_run.2
                 = status_queue quiet_world ++ l ++ [("error", "Error")]) /\
      stack_traces api_failure_run.2 = S (stack_traces quiet_world)
  | (Pending, w1) => api_failure_run.1 = Pending /\ api_failure_run.2 = w1
  end.
Proof.
  split; [vm_compute; reflexivity|].
  apply (error_boundary unreachable_api (configuration true false) false None
           (utterance 16000) quiet_world VNone (VInt 16000) (silence_frames 900)
           api_failure_run.1 api_failure_run.2).
  - vm_compute; reflexivity.
  - apply surjective_pairing.
Defined.

Lemma falsy_config_never_transcribes_witness :
  truthy VNone = false /\
  (forall u, new_vad textless_api = Returns u ->
             preamble textless_api VNone = Ok (VNone, VInt 16000, silence_frames 900)) /\
  (exists e, subscript VNone "print_to_terminal" = Exc e) /\
  (forall s, no_configuration_run.1 <> Ok (Some s)) /\
  (forall u, new_vad textless_api = Returns u ->
             no_configuration_run = (Ok None, after_handler quiet_world)).
Proof.
  split; [reflexivity|].
  apply (falsy_config_never_transcribes textless_api VNone false None
           (utterance 16000) quiet_world).
  reflexivity.
Defined.

(** C5, at the failing input.  When the remote API raises after the
    recording was written to the temporary file, the handler runs and the
    session returns [None] while the file is still on disk. *)
Theorem temp_file_left_after_fault :
  (temp_name unreachable_api ∉ disk quiet_world) /\
  api_failure_run.1 = Ok None /\
  status_queue api_failure_run.2
  = [("transcribing", "Transcribing..."); ("error", "Error")] /\
  (temp_name unreachable_api ∈ disk api_failure_run.2).
Proof.
  split; [apply not_elem_of_empty|].
  split; [vm_compute; reflexivity|].
  split; [vm_compute; reflexivity|].
  refine (bool_decide_unpack _ _). vm_compute. exact I.
Qed.

(** C8, at the failing input.  When the response of the remote API has no
    text field and terminal output is enabled, line 132 calls [strip] on
    [None]: the session ends in the handler and returns [None], not the
    empty string.  With terminal output disabled it returns the empty
    string. *)
Theorem absent_text_with_terminal_output :
  absent_text_run true
  = (Ok None,
     {| status_queue := [("transcribing", "Transcribing..."); ("error", "Error")];
        disk := ∅; stack_traces := 1 |}) /\
  absent_text_run false
  = (Ok (Some ""), {| status_queue := statuses_of_success; disk := ∅; stack_traces := 0 |}).
Proof. split; vm_compute; reflexivity. Qed.

(** * Further properties *)

(** ** The post-processor, beyond the claims *)

Lemma process_transcription_dict text (d : gmap string value) period space capitals :
  d !! "remove_trailing_period" = Some period ->
  d !! "add_trailing_space" = Some space ->
  d !! "remove_capitalization" = Some capitals ->
  process_transcription text (VDict d) =
  Ok (lowercase (truthy capitals)
        (append_one_trailing_space (truthy space)
           (strip_one_trailing_period (truthy period) text))).
Proof.
  intros Hp Hs Hc. unfold process_transcription, subscript. simpl.
  assert (d <> ∅) as Hne by (intros ->; rewrite lookup_empty in Hp; discriminate).
  rewrite bool_decide_eq_false_2 by exact Hne. simpl.
  rewrite Hp. simpl. rewrite Hs. simpl. rewrite Hc. reflexivity.
Qed.

Lemma lower_char_idempotent c : lower_char (lower_char c) = lower_char c.
Proof. destruct c as [[] [] [] [] [] [] [] []]; reflexivity. Qed.

Lemma lower_idempotent s : lower (lower s) = lower s.
Proof.
  induction s as [|c s IH]; [reflexivity|].
  simpl. rewrite lower_char_idempotent, IH. reflexivity.
Qed.

Lemma append_length s t :
  String.length (s +:+ t) = (String.length s + String.length t)%nat.
Proof. induction s as [|c s IH]; [reflexivity|]. simpl. rewrite IH. reflexivity. Qed.

Lemma drop_last_length s :
  endswith_period s = true -> S (String.length (drop_last s)) = String.length s.
Proof.
  induction s as [|c s IH]; [discriminate|].
  simpl. destruct s as [|c' s]; [reflexivity|].
  intros H. simpl in *. rewrite IH by exact H. reflexivity.
Qed.

(** X1.  A non-empty configuration that lacks one of the three text
    options makes the post-processor raise [KeyError] for the first option
    that is missing, in the order the code reads them. *)
Theorem process_transcription_missing_option text (d : gmap string value) :
  d <> ∅ ->
  (d !! "remove_trailing_period" = None ->
   process_transcription text (VDict d) = Exc (KeyError "remove_trailing_period")) /\
  (is_Some (d !! "remove_trailing_period") ->
   d !! "add_trailing_space" = None ->
   process_transcription text (VDict d) = Exc (KeyError "add_trailing_space")) /\
  (is_Some (d !! "remove_trailing_period") ->
   is_Some (d !! "add_trailing_space") ->
   d !! "remove_capitalization" = None ->
   process_transcription text (VDict d) = Exc (KeyError "remove_capitalization")).
Proof.
  intros Hne. unfold process_transcription, subscript. simpl.
  rewrite bool_decide_eq_false_2 by exact Hne. simpl.
  repeat split.
  - intros ->. reflexivity.
  - intros [p ->] ->. reflexivity.
  - intros [p ->] [s ->] ->. reflexivity.
Qed.

Lemma process_transcription_missing_option_witness :
  period_only <> ∅ /\
  process_transcription "Hello." (VDict period_only) = Exc (KeyError "add_trailing_space").
Proof.
  assert (period_only <> ∅) as Hne by apply insert_non_empty.
  split; [exact Hne|].
  apply (process_transcription_missing_option "Hello." period_only Hne).
  - vm_compute. eauto.
  - vm_compute. reflexivity.
Defined.

(** X2.  With [remove_trailing_period] and [add_trailing_space] both off,
    post-processing a text that was already post-processed changes
    nothing. *)
Theorem process_transcription_idempotent text (d : gmap string value) period space capitals :
  d !! "remove_trailing_period" = Some period ->
  d !! "add_trailing_space" = Some space ->
  d !! "remove_capitalization" = Some capitals ->
  truthy period = false ->
  truthy space = false ->
  process_transcription text (VDict d)
    ≫= (fun once => process_transcription once (VDict d))
  = process_transcription text (VDict d).
Proof.
  intros Hp Hs Hc Hperiod Hspace.
  rewrite (process_transcription_dict text d period space capitals Hp Hs Hc).
  simpl.
  rewrite (process_transcription_dict _ d period space capitals Hp Hs Hc).
  rewrite Hperiod, Hspace.
  unfold lowercase, append_one_trailing_space, strip_one_trailing_period. simpl.
  destruct (truthy capitals); [rewrite lower_idempotent|]; reflexivity.
Qed.

Lemma process_transcription_idempotent_witness :
  process_transcription "Hi There." (options false false true)
    ≫= (fun once => process_transcription once (options false false true))
  = process_transcription "Hi There." (options false false true).
Proof.
  apply (process_transcription_idempotent "Hi There." _
           (VBool false) (VBool false) (VBool true)); vm_compute; reflexivity.
Defined.

(** X3.  With [remove_capitalization] off, the post-processor changes the
    length of a text by what the two other options say and nothing else:
    one character less when the trailing period is removed, one more when
    the space is appended. *)
Theorem process_transcription_length text (d : gmap string value) period space capitals out :
  d !! "remove_trailing_period" = Some period ->
  d !! "add_trailing_space" = Some space ->
  d !! "remove_capitalization" = Some capitals ->
  truthy capitals = false ->
  process_transcription text (VDict d) = Ok out ->
  Z.of_nat (String.length out) =
  Z.of_nat (String.length text)
  - Z.b2z (truthy period && endswith_period text) + Z.b2z (truthy space).
Proof.
  intros Hp Hs Hc Hcapitals.
  rewrite (process_transcription_dict text d period space capitals Hp Hs Hc), Hcapitals.
  intros [= <-].
  unfold lowercase, append_one_trailing_space, strip_one_trailing_period.
  destruct (truthy space); rewrite ?append_length; simpl String.length;
    destruct (truthy period); simpl andb;
    try destruct (endswith_period text) eqn:E;
    try apply drop_last_length in E; simpl Z.b2z; lia.
Qed.

Lemma process_transcription_length_witness :
  Z.of_nat (String.length "Hello There ") =
  Z.of_nat (String.length "Hello There.")
  - Z.b2z (truthy (VBool true) && endswith_period "Hello There.")
  + Z.b2z (truthy (VBool true)).
Proof.
  apply (process_transcription_length "Hello There."
           (<["remove_trailing_period" := VBool true]>
              (<["add_trailing_space" := VBool true]>
                 (<["remove_capitalization" := VBool false]> ∅)))
           (VBool true) (VBool true) (VBool false) "Hello There ");
    vm_compute; reflexivity.
Defined.

(** X4.  With only [remove_trailing_period] on, a text written with a
    final period comes back without that period and otherwise as it was:
    one period is removed, so a text ending in several keeps the others. *)
Theorem process_transcription_strips_one_period text (d : gmap string value)
    period space capitals :
  d !! "remove_trailing_period" = Some period ->
  d !! "add_trailing_space" = Some space ->
  d !! "remove_capitalization" = Some capitals ->
  truthy period = true ->
  truthy space = false ->
  truthy capitals = false ->
  process_transcription (text +:+ ".") (VDict d) = Ok text.
Proof.
  intros Hp Hs Hc Hperiod Hspace Hcapitals.
  rewrite (process_transcription_dict _ d period space capitals Hp Hs Hc).
  rewrite Hperiod, Hspace, Hcapitals. simpl.
  unfold strip_one_trailing_period. simpl.
  rewrite endswith_period_app, drop_last_app. reflexivity.
Qed.

Lemma process_transcription_strips_one_period_witness :
  process_transcription ("Wait.." +:+ ".") (options true false false) = Ok "Wait..".
Proof.
  apply (process_transcription_strips_one_period "Wait.." _
           (VBool true) (VBool false) (VBool false)); vm_compute; reflexivity.
Defined.

(** ** The loop, beyond the claims *)

Lemma pass_recording_prefix rate thr rt st c ev st' sg :
  pass rate thr rt st c = (ev, (st', sg)) ->
  recording st `prefix_of` recording st'.
Proof.
  unfold pass. destruct (_ <? _).
  - intros [= <- <- <-]. reflexivity.
  - destruct (is_speech c) as [speech|e].
    + intros [= <- H]. apply stop_check_locals in H as (_ & -> & _).
      destruct speech; simpl; [apply prefix_app_r|]; reflexivity.
    + intros [= <- <- <-]. reflexivity.
Qed.

Lemma loop_recording_prefix rate thr rt st cycles evs st' r :
  loop rate thr rt st cycles = (evs, (st', r)) ->
  recording st `prefix_of` recording st'.
Proof.
  intros H.
  refine (loop_always (fun _ _ st1 => recording st `prefix_of` recording st1)
            rate thr rt _ cycles st evs st' r [] [] _ H); [|reflexivity].
  intros cs evs0 st0 c ev st1 sg IH Hp.
  etransitivity; [exact IH|]. eapply pass_recording_prefix, Hp.
Qed.

(** X5.  The recording only grows: from any locals and over any cycles,
    what was recorded when a run started is a prefix of what is recorded
    when it ends, however it ends. *)
Theorem recording_only_grows rate thr rt st cycles :
  recording st `prefix_of` recording (loop rate thr rt st cycles).2.1.
Proof.
  destruct (loop rate thr rt st cycles) as [evs [st' r]] eqn:H. simpl.
  eapply loop_recording_prefix, H.
Qed.

(** X6.  While the stream has not delivered a whole frame the loop only
    waits: it classifies nothing, records nothing, does not look at the
    cancel flag and does not end, whatever the hotkey does. *)
Theorem stalled_stream_ignores_hotkey rate thr rt cycles : forall st,
  Z.of_nat (length (buffer st ++ concat (pushed <$> cycles))) < frame_size rate ->
  loop rate thr rt st cycles =
  (replicate (length cycles) Waited,
   ({| buffer := buffer st ++ concat (pushed <$> cycles);
       recording := recording st;
       num_silent_frames := num_silent_frames st;
       exit_reason := exit_reason st |}, Pending)).
Proof.
  induction cycles as [|c cycles IH]; intros st Hshort; simpl.
  - rewrite app_nil_r. destruct st; reflexivity.
  - simpl in Hshort. rewrite app_assoc in Hshort.
    unfold pass.
    destruct (Z.ltb_spec (Z.of_nat (length (buffer st ++ pushed c))) (frame_size rate))
      as [_|Hfull].
    + rewrite IH by exact Hshort. simpl. rewrite <- app_assoc. reflexivity.
    + rewrite length_app in Hshort. lia.
Qed.

Lemma stalled_stream_ignores_hotkey_witness :
  Z.of_nat (length (buffer entry ++ concat (pushed <$> [stalled_cycle; stalled_cycle])))
  < frame_size 100 /\
  loop 100 (silence_frames 900) None entry [stalled_cycle; stalled_cycle] =
  ([Waited; Waited],
   ({| buffer := [5; 5]; recording := []; num_silent_frames := 0;
       exit_reason := "Unknown" |}, Pending)).
Proof.
  assert (Z.of_nat (length (buffer entry ++ concat (pushed <$> [stalled_cycle; stalled_cycle])))
          < frame_size 100) as H by (vm_compute; reflexivity).
  split; [exact H|].
  exact (stalled_stream_ignores_hotkey 100 (silence_frames 900) None
           [stalled_cycle; stalled_cycle] entry H).
Defined.

Lemma pass_without_speech rate thr rt st c ev st' sg :
  is_speech c <> Returns true ->
  pass rate thr rt st c = (ev, (st', sg)) ->
  recording st' = recording st.
Proof.
  intros Hno. unfold pass. destruct (_ <? _).
  - intros [= <- <- <-]. reflexivity.
  - destruct (is_speech c) as [[|]|e].
    + contradiction Hno. reflexivity.
    + intros [= <- H]. apply stop_check_locals in H as (_ & -> & _). reflexivity.
    + intros [= <- <- <-]. reflexivity.
Qed.

(** X7.  While less than [sample_rate] samples are recorded, only more
    speech can end the loop: over cycles without a speech frame the
    recording stays as it is and the loop does not break, whether silence
    has lasted long enough or the hotkey is pressed. *)
Theorem short_recording_needs_more_speech rate thr rt st cycles evs st' r :
  Z.of_nat (length (recording st)) < rate ->
  Forall (fun c => is_speech c <> Returns true) cycles ->
  loop rate thr rt st cycles = (evs, (st', r)) ->
  recording st' = recording st /\ forall stopped, r <> Ok stopped.
Proof.
  intros Hshort Hno H.
  assert (recording st' = recording st) as Hrec.
  { refine (loop_always
              (fun cs _ st1 =>
                 Forall (fun c => is_speech c <> Returns true) cs ->
                 recording st1 = recording st)
              rate thr rt _ cycles st evs st' r [] [] _ H _).
    - intros cs evs0 st0 c ev st1 sg IH Hp Hcs.
      apply Forall_app in Hcs as [Hcs Hc]. inversion Hc; subst.
      rewrite <- (IH Hcs). eapply pass_without_speech; eauto.
    - reflexivity.
    - simpl. apply Forall_take, Hno. }
  split; [exact Hrec|].
  intros stopped ->. apply loop_break_minimum in H. rewrite Hrec in H. lia.
Qed.

Lemma short_recording_needs_more_speech_witness :
  recording
    (loop 100 (silence_frames 900) None entry
       (replicate 40 (with_hotkey (silent_cycle 100)))).2.1 = recording entry /\
  forall stopped,
    (loop 100 (silence_frames 900) None entry
       (replicate 40 (with_hotkey (silent_cycle 100)))).2.2 <> Ok stopped.
Proof.
  apply (short_recording_needs_more_speech 100 (silence_frames 900) None entry
           (replicate 40 (with_hotkey (silent_cycle 100)))
           (loop 100 (silence_frames 900) None entry
              (replicate 40 (with_hotkey (silent_cycle 100)))).1).
  - simpl. lia.
  - apply Forall_replicate. discriminate.
  - apply triple_eta.
Defined.

(** X8.  Once the recording holds [sample_rate] samples, a frame during
    which the hotkey is held ends the loop in that very pass, with the
    reason "Hotkey pressed" when silence has not reached the threshold,
    and without calling [recording_thread.stop()]; later cycles are not
    looked at. *)
Theorem hotkey_ends_the_loop rate thr rt st c rest speech :
  frame_size rate <= Z.of_nat (length (buffer st ++ pushed c)) ->
  is_speech c = Returns speech ->
  cancel_flag c = true ->
  cancel_flag_again c = true ->
  let frame := slice_to (buffer st ++ pushed c) (frame_size rate) in
  let st1 := account st (slice_from (buffer st ++ pushed c) (frame_size rate)) frame speech in
  rate <= Z.of_nat (length (recording st1)) ->
  num_silent_frames st1 < thr ->
  loop rate thr rt st (c :: rest) =
  ([Heard frame speech], (set_exit_reason st1 "Hotkey pressed", Ok false)).
Proof.
  intros Hfull Hvad Hkey Hagain frame st1 Hlong Hquiet. simpl. unfold pass.
  destruct (Z.ltb_spec (Z.of_nat (length (buffer st ++ pushed c))) (frame_size rate));
    [lia|].
  rewrite Hvad. fold frame. fold st1. unfold stop_check.
  rewrite Hkey, Hagain, orb_true_r.
  destruct (Z.ltb_spec (Z.of_nat (length (recording st1))) rate); [lia|].
  simpl num_silent_frames.
  destruct (Z.leb_spec thr (num_silent_frames st1)); [lia|]. reflexivity.
Qed.

Lemma hotkey_ends_the_loop_witness :
  loop 100 (silence_frames 900) (Some (Returns ())) one_second_recorded
    (with_hotkey (silent_cycle 100) :: utterance 100) =
  ([Heard [0; 0; 0] false],
   ({| buffer := []; recording := replicate 102 1; num_silent_frames := 1;
       exit_reason := "Hotkey pressed" |}, Ok false)).
Proof.
  apply (hotkey_ends_the_loop 100 (silence_frames 900) (Some (Returns ()))
           one_second_recorded (with_hotkey (silent_cycle 100)) (utterance 100) false);
    vm_compute; first [reflexivity | discriminate].
Defined.

Lemma pass_heard rate thr rt st c ev st' sg :
  pass rate thr rt st c = (ev, (st', sg)) ->
  sg <> Ok Continue -> (forall e, sg <> Exc e) ->
  exists buf frame speech,
    recording st' = recording (account st buf frame speech) /\
    num_silent_frames st' = num_silent_frames (account st buf frame speech).
Proof.
  unfold pass. destruct (_ <? _).
  - intros [= <- <- <-] Hno _. contradiction Hno. reflexivity.
  - destruct (is_speech c) as [speech|e].
    + intros [= <- H] _ _. apply stop_check_locals in H as (_ & -> & ->). eauto.
    + intros [= <- <- <-] _ Hno. exfalso. eapply Hno. reflexivity.
Qed.

(** X9.  The silence exit is prompt: a run from the loop's entry that ends
    with the reason Silence ends on the frame that completes the threshold,
    so its counter, and with a non-empty recording the trailing run of
    non-speech frames, is the threshold itself and never more. *)
Theorem silence_stops_at_threshold rate thr rt cycles evs st stopped :
  0 <= thr ->
  loop rate thr rt entry cycles = (evs, (st, Ok stopped)) ->
  exit_reason st = "Silence" ->
  num_silent_frames st = thr /\
  (recording st <> [] -> silence_run_length evs = thr).
Proof.
  intros Hthr Hloop Hreason.
  pose proof (loop_counted _ _ _ _ _ _ _ Hloop) as (_ & Hrun & _).
  assert (num_silent_frames st = thr) as Hn.
  { apply loop_cases in Hloop
      as [[? _]|(pre & c & post & evs0 & ev & st0 & sg & _ & _ & Hc & Hp & Hsg)];
      [discriminate|].
    destruct sg as [[|stopped']|e|]; try contradiction; try discriminate.
    pose proof (continues_running _ _ _ _ _ _ _ Hc [] (entry_running rate thr))
      as Hrunning.
    destruct Hrunning as ((_ & _ & Hlead) & Hunknown & Hgate).
    pose proof (pass_break _ _ _ _ _ _ _ _ Hp) as (Hlong & Hlabel & _).
    assert (thr <= num_silent_frames st) as Hreached.
    { destruct (Z.leb_spec thr (num_silent_frames st)); [assumption|].
      rewrite Hreason, Hunknown in Hlabel.
      destruct (cancel_flag_again c); discriminate. }
    apply pass_heard in Hp as (buf & frame & speech & Hr & Hcount);
      [|discriminate..].
    rewrite Hr in Hlong. rewrite Hcount in Hreached |- *.
    unfold account in *. destruct speech; simpl in *; [lia|].
    destruct (recording st0) as [|x l] eqn:Hrec; simpl in *.
    - rewrite Hlead in * by reflexivity. lia.
    - assert (~ (thr <= num_silent_frames st0 /\
                 rate <= Z.of_nat (length (x :: l)))) by (apply Hgate; discriminate).
      simpl in *. lia. }
  split; [exact Hn|]. intros Hne. rewrite <- Hrun by exact Hne. exact Hn.
Qed.

Lemma silence_stops_at_threshold_witness :
  num_silent_frames toy_run.2.1 = silence_frames 900 /\
  (recording toy_run.2.1 <> [] -> silence_run_length toy_run.1 = silence_frames 900).
Proof.
  apply (silence_stops_at_threshold 100 (silence_frames 900) (Some (Returns ()))
           (utterance 100) toy_run.1 toy_run.2.1 true).
  - vm_compute. discriminate.
  - vm_compute. reflexivity.
  - vm_compute. reflexivity.
Defined.

Lemma pass_silent_frame rate thr rt st c :
  buffer st = [] -> recording st <> [] -> silent_frame rate c ->
  pass rate thr rt st c =
  (Heard (pushed c) false,
   stop_check rate thr rt
     {| buffer := []; recording := recording st;
        num_silent_frames := num_silent_frames st + 1;
        exit_reason := exit_reason st |} c).
Proof.
  intros Hbuf Hrec (Hlen & Hvad & _). unfold pass. rewrite Hbuf, Hvad. simpl.
  destruct (Z.ltb_spec (Z.of_nat (length (pushed c))) (frame_size rate)); [lia|].
  unfold slice_to, slice_from, slice_bound.
  destruct (Z.ltb_spec (frame_size rate) 0); [lia|].
  rewrite take_ge, drop_ge by lia.
  unfold account.
  destruct (Z.ltb_spec 0 (Z.of_nat (length (recording st)))); [reflexivity|].
  destruct (recording st); [contradiction Hrec; reflexivity | simpl in *; lia].
Qed.

(** X10.  Silence does end the session: from locals that hold at least
    [sample_rate] recorded samples and an empty buffer, as many further
    non-speech frames as the counter is short of the threshold make the
    loop break on the last of them, labelled Silence, with the recording
    unchanged, and [recording_thread.stop()] is called when a handle was
    passed; what follows is not looked at. *)
Theorem silence_ends_the_loop rate thr rt cycles : forall st rest,
  buffer st = [] ->
  recording st <> [] ->
  rate <= Z.of_nat (length (recording st)) ->
  Forall (silent_frame rate) cycles ->
  cycles <> [] ->
  num_silent_frames st + Z.of_nat (length cycles) = thr ->
  (forall e, rt <> Some (Raises e)) ->
  loop rate thr rt st (cycles ++ rest) =
  ((fun c => Heard (pushed c) false) <$> cycles,
   ({| buffer := []; recording := recording st;
       num_silent_frames := thr; exit_reason := "Silence" |},
    Ok (bool_decide (is_Some rt)))).
Proof.
  induction cycles as [|c cycles IH]; intros st rest Hbuf Hrec Hlong Hsilent Hne Hcount Hstop;
    [contradiction Hne; reflexivity|].
  apply Forall_cons in Hsilent as [Hc Hsilent].
  rewrite <- app_comm_cons. cbn [loop]. rewrite pass_silent_frame by assumption.
  destruct Hc as (_ & _ & Hkey).
  unfold stop_check. cbn [num_silent_frames recording]. rewrite Hkey, orb_false_r.
  destruct cycles as [|c' cycles].
  - simpl in Hcount.
    destruct (Z.leb_spec thr (num_silent_frames st + 1)); [|lia].
    destruct (Z.ltb_spec (Z.of_nat (length (recording st))) rate); [lia|].
    assert (num_silent_frames st + 1 = thr) as Hn by lia.
    destruct rt as [[[]|e]|]; [| exfalso; eapply Hstop; reflexivity |].
    all: destruct (cancel_flag_again c); cbn [set_exit_reason num_silent_frames];
      (destruct (Z.leb_spec thr (num_silent_frames st + 1)); [|lia]);
      unfold set_exit_reason; cbn; rewrite Hn; reflexivity.
  - cbn [length] in Hcount.
    destruct (Z.leb_spec thr (num_silent_frames st + 1)); [lia|].
    rewrite (IH {| buffer := []; recording := recording st;
                   num_silent_frames := num_silent_frames st + 1;
                   exit_reason := exit_reason st |} rest);
      try assumption; try discriminate;
      [reflexivity | reflexivity | cbn [num_silent_frames length] in *; lia].
Qed.

Lemma silence_ends_the_loop_witness :
  loop 100 (silence_frames 900) (Some (Returns ())) one_second_recorded
    (replicate 30 (silent_cycle 100) ++ utterance 100) =
  ((fun c => Heard (pushed c) false) <$> replicate 30 (silent_cycle 100),
   ({| buffer := []; recording := recording one_second_recorded;
       num_silent_frames := silence_frames 900; exit_reason := "Silence" |},
    Ok (bool_decide (is_Some (Some (Returns ())))))).
Proof.
  apply (silence_ends_the_loop 100 (silence_frames 900) (Some (Returns ()))
           (replicate 30 (silent_cycle 100)) one_second_recorded (utterance 100)).
  - reflexivity.
  - discriminate.
  - vm_compute. discriminate.
  - apply Forall_replicate. repeat split.
  - discriminate.
  - vm_compute. reflexivity.
  - intros e. discriminate.
Defined.

(** X11.  At a sample rate that is a positive multiple of 100 Hz, where a
    frame is exactly 30 ms, no run from the loop's entry leaves by [break]
    before 34 frames were classified as speech: the shortest recording the
    session can hand on is 1.02 seconds long. *)
Theorem shortest_recording rate thr rt cycles evs st stopped :
  0 < rate ->
  rate `mod` 100 = 0 ->
  loop rate thr rt entry cycles = (evs, (st, Ok stopped)) ->
  34 <= Z.of_nat (length (speech_frames evs)) /\
  102 * rate <= 100 * Z.of_nat (length (recording st)).
Proof.
  intros Hpos Hmod Hloop.
  pose proof (loop_counted _ _ _ _ _ _ _ Hloop) as (Hrec & _ & _).
  assert (Forall (fun frame => Z.of_nat (length frame) = frame_size rate)
            (speech_frames evs)) as Hsize.
  { apply Forall_forall. intros frame Hin.
    assert (0 <= rate) as Hrate by lia.
    pose proof (loop_frame_size _ _ _ _ _ _ _ Hrate Hloop) as Hall.
    rewrite Forall_forall in Hall. apply Hall.
    apply (speech_frames_are_frames evs), Hin. }
  apply concat_length_uniform in Hsize. rewrite <- Hrec in Hsize.
  apply loop_break_minimum in Hloop.
  assert (frame_size rate * 100 = 3 * rate) as Hframe.
  { unfold frame_size, frame_duration.
    apply Z.mod_divide in Hmod as [q ->]; [|lia].
    replace (q * 100 * 30) with (3 * q * 1000) by lia.
    rewrite Z.div_mul by lia. lia. }
  set (k := Z.of_nat (length (speech_frames evs))) in *.
  set (n := Z.of_nat (length (recording st))) in *.
  assert (100 * n = 3 * (rate * k)) as Hn by (rewrite Hsize; lia).
  assert (34 <= k) as Hk.
  { destruct (Z.le_gt_cases 34 k) as [|Hlt]; [assumption|].
    assert (rate * k <= rate * 33) by (apply Z.mul_le_mono_nonneg_l; lia). lia. }
  split; [exact Hk|].
  assert (rate * 34 <= rate * k) by (apply Z.mul_le_mono_nonneg_l; lia). lia.
Qed.

Lemma shortest_recording_witness :
  34 <= Z.of_nat (length (speech_frames toy_run.1)) /\
  102 * 100 <= 100 * Z.of_nat (length (recording toy_run.2.1)).
Proof.
  apply (shortest_recording 100 (silence_frames 900) (Some (Returns ()))
           (utterance 100) toy_run.1 toy_run.2.1 true).
  - lia.
  - reflexivity.
  - vm_compute. reflexivity.
Defined.

(** ** The session, beyond the claims *)

Lemma preamble_with_local_model env constructor segments config :
  preamble (with_local_model env constructor segments) config = preamble env config.
Proof. reflexivity. Qed.

Lemma preamble_with_remote_api env file response config :
  preamble (with_remote_api env file response) config = preamble env config.
Proof. reflexivity. Qed.

Ltac session_steps :=
  unfold session, capture, with_stream, named_temporary_file, os_remove,
    transcribe_local, transcribe_remote, create_local_model, print_if, put, lift;
  unfold mbind, mret, M_bind, M_ret;
  cbn -[subscript truthy loop as_int process_transcription str_strip silence_frames].

(** X12.  A session uses one backend, the one [use_api] selects.  With
    [use_api] true the model constructor, the local model and the
    [local_model] argument are never consulted; with [use_api] false the
    audio file is not reopened and the remote API is not called; and a
    local model that was passed in is reused, [create_local_model] not
    being called. *)
Theorem one_backend_per_session env config local_model rt cycles w use_api :
  subscript config "use_api" = Ok use_api ->
  (truthy use_api = true -> forall constructor segments passed,
     record_and_transcribe (with_local_model env constructor segments) config passed rt cycles w
     = record_and_transcribe env config local_model rt cycles w) /\
  (truthy use_api = false -> forall file response,
     record_and_transcribe (with_remote_api env file response) config local_model rt cycles w
     = record_and_transcribe env config local_model rt cycles w) /\
  (forall constructor,
     record_and_transcribe (with_local_model env constructor (local_transcribe env))
       config true rt cycles w
     = record_and_transcribe env config true rt cycles w).
Proof.
  intros Hu. split; [|split].
  - intros Ht constructor segments passed.
    rewrite !record_and_transcribe_unfold, preamble_with_local_model.
    destruct (preamble env config) as [[[sd sr] thr]|e|]; [|reflexivity..].
    unfold try_except.
    assert (session (with_local_model env constructor segments) config sr thr passed rt cycles w
            = session env config sr thr local_model rt cycles w) as ->; [|reflexivity].
    session_steps. rewrite Hu. session_steps. rewrite Ht. reflexivity.
  - intros Ht file response.
    rewrite !record_and_transcribe_unfold, preamble_with_remote_api.
    destruct (preamble env config) as [[[sd sr] thr]|e|]; [|reflexivity..].
    unfold try_except.
    assert (session (with_remote_api env file response) config sr thr local_model rt cycles w
            = session env config sr thr local_model rt cycles w) as ->; [|reflexivity].
    session_steps. rewrite Hu. session_steps. rewrite Ht. reflexivity.
  - intros constructor.
    rewrite !record_and_transcribe_unfold, preamble_with_local_model.
    destruct (preamble env config) as [[[sd sr] thr]|e|]; reflexivity.
Qed.

Lemma one_backend_per_session_witness :
  (truthy (VBool true) = true -> forall constructor segments passed,
     record_and_transcribe (with_local_model textless_api constructor segments)
       (configuration true false) passed None (utterance 100) quiet_world
     = record_and_transcribe textless_api (configuration true false) false None
         (utterance 100) quiet_world) /\
  (truthy (VBool true) = false -> forall file response,
     record_and_transcribe (with_remote_api textless_api file response)
       (configuration true false) false None (utterance 100) quiet_world
     = record_and_transcribe textless_api (configuration true false) false None
         (utterance 100) quiet_world) /\
  (forall constructor,
     record_and_transcribe
       (with_local_model textless_api constructor (local_transcribe textless_api))
       (configuration true false) true None (utterance 100) quiet_world
     = record_and_transcribe textless_api (configuration true false) true None
         (utterance 100) quiet_world).
Proof.
  apply (one_backend_per_session textless_api (configuration true false) false None
           (utterance 100) quiet_world (VBool true)).
  vm_compute. reflexivity.
Defined.

Lemma subscript_dict (d : gmap string value) key v :
  d !! key = Some v -> subscript (VDict d) key = Ok v.
Proof. intros H. simpl. rewrite H. reflexivity. Qed.

Lemma truthy_dict (d : gmap string value) key v :
  d !! key = Some v -> truthy (VDict d) = true.
Proof.
  intros H. simpl. rewrite bool_decide_eq_false_2; [reflexivity|].
  intros ->. rewrite lookup_empty in H. discriminate.
Qed.

(** X13.  The two numeric settings fail differently.  A [silence_duration]
    that is not a number raises [TypeError] on line 49, before [try]: the
    exception reaches the caller and nothing is pushed or logged.  A
    [sample_rate] that is not a number raises inside [try], when the block
    size of the stream is computed: the handler runs and [None] is returned,
    before the stream is opened. *)
Theorem non_numeric_settings env (d : gmap string value) local_model rt cycles w
    sound rate duration :
  d !! "sound_device" = Some sound ->
  d !! "sample_rate" = Some rate ->
  d !! "silence_duration" = Some duration ->
  new_vad env = Returns () ->
  (as_int duration = Exc TypeError ->
   record_and_transcribe env (VDict d) local_model rt cycles w = (Exc TypeError, w)) /\
  (forall z, as_int duration = Ok z ->
   as_int rate = Exc TypeError ->
   record_and_transcribe env (VDict d) local_model rt cycles w = (Ok None, after_handler w)).
Proof.
  intros Hsound Hrate Hduration Hvad.
  rewrite record_and_transcribe_unfold. unfold preamble.
  rewrite (truthy_dict _ _ _ Hsound).
  rewrite (subscript_dict _ _ _ Hsound), (subscript_dict _ _ _ Hrate),
    (subscript_dict _ _ _ Hduration), Hvad.
  cbn -[as_int]. split.
  - intros ->. reflexivity.
  - intros z -> Hr.
    cbn -[as_int]. unfold try_except. session_steps. rewrite Hr. reflexivity.
Qed.

Lemma non_numeric_settings_witness :
  record_and_transcribe textless_api
    (VDict (<["sound_device" := VNone]>
              (<["sample_rate" := VInt 16000]>
                 (<["silence_duration" := VStr "900"]> ∅))))
    false None (utterance 16000) quiet_world
  = (Exc TypeError, quiet_world).
Proof.
  apply (non_numeric_settings textless_api
           (<["sound_device" := VNone]>
              (<["sample_rate" := VInt 16000]>
                 (<["silence_duration" := VStr "900"]> ∅)))
           false None (utterance 16000) quiet_world VNone (VInt 16000) (VStr "900"));
    vm_compute; reflexivity.
Defined.

(** X14.  An exception while recording, whether from the sample rate, from
    opening or closing the stream, from the device query or from the VAD
    refusing a frame, ends the call with [None]: the handler logs one stack
    trace and pushes the error pair, and nothing else was pushed and no
    file was created. *)
Theorem recording_failure_touches_nothing env config local_model rt cycles w
    sound rate thr e w1 :
  preamble env config = Ok (sound, rate, thr) ->
  capture env config rate thr rt cycles w = (Exc e, w1) ->
  record_and_transcribe env config local_model rt cycles w = (Ok None, after_handler w).
Proof.
  intros Hpre Hcap. rewrite record_and_transcribe_unfold, Hpre.
  assert (w1 = w) as -> by (eapply pure_capture; eauto).
  unfold try_except, session.
  unfold mbind at 1. unfold M_bind at 1. rewrite Hcap. reflexivity.
Qed.

Lemma recording_failure_touches_nothing_witness :
  record_and_transcribe textless_api (configuration true false) false None
    (speech_cycle 16000 :: refused_cycle :: utterance 16000) quiet_world
  = (Ok None, after_handler quiet_world).
Proof.
  apply (recording_failure_touches_nothing textless_api (configuration true false)
           false None (speech_cycle 16000 :: refused_cycle :: utterance 16000)
           quiet_world VNone (VInt 16000) (silence_frames 900)
           (ExternalError "Error while processing frame") quiet_world);
    vm_compute; reflexivity.
Defined.

(** X15.  A call that returns a string leaves nothing behind: the status
    queue has received the transcribing pair and then the idle pair, the
    files on disk are those that were there before, and no stack trace was
    logged. *)
Theorem success_leaves_no_trace env config local_model rt cycles w s w' :
  record_and_transcribe env config local_model rt cycles w = (Ok (Some s), w') ->
  temp_name env ∉ disk w ->
  w' = after_success w.
Proof.
  rewrite record_and_transcribe_unfold.
  destruct (preamble env config) as [[[sd sr] thr]|e|]; [|discriminate..].
  unfold try_except.
  destruct (session env config sr thr local_model rt cycles w) as [[s'|e|] w1] eqn:E;
    [|discriminate..].
  intros [= <- <-] Hfresh.
  apply session_world in E as (Htraces & (l & Hqueue & _ & Hall) & Hdisk).
  rewrite (Hall s' eq_refl) in Hqueue.
  destruct (Hdisk Hfresh) as [Hsame|[_ Hno]]; [|exfalso; eapply Hno; reflexivity].
  destruct w1 as [q f t]. unfold after_success. simpl in *. congruence.
Qed.

Lemma success_leaves_no_trace_witness : local_run.2 = after_success quiet_world.
Proof.
  apply (success_leaves_no_trace textless_api (configuration false true) false None
           (utterance 16000) quiet_world "Hello world" local_run.2).
  - vm_compute. reflexivity.
  - apply not_elem_of_empty.
Defined.

Lemma bind_ok {A B} (m : M A) (k : A -> M B) w a w1 :
  m w = (Ok a, w1) -> (m ≫= k) w = k a w1.
Proof. unfold mbind, M_bind. intros ->. reflexivity. Qed.

Lemma bind_exc {A B} (m : M A) (k : A -> M B) w e w1 :
  m w = (Exc e, w1) -> (m ≫= k) w = (Exc e, w1).
Proof. unfold mbind, M_bind. intros ->. reflexivity. Qed.

Lemma print_if_ok {A} config flag (arguments : res A) x w :
  subscript config "print_to_terminal" = Ok flag ->
  arguments = Ok x ->
  print_if config arguments w = (Ok (), w).
Proof.
  intros Hflag ->. unfold print_if, lift, mbind, M_bind. rewrite Hflag.
  destruct (truthy flag); reflexivity.
Qed.

(** With a configuration that holds the settings of the recording,
    collaborators that answer and a loop that leaves by [break], a session
    reaches the dispatch with the transcribing pair pushed and the
    temporary file on disk. *)
Lemma session_after_recording env (d : gmap string value) local_model rt cycles w
    rate duration remote device name evs st stopped :
  session_configuration d rate duration remote ->
  answering env device ->
  subscript device "name" = Ok name ->
  loop rate (silence_frames duration) rt entry cycles = (evs, (st, Ok stopped)) ->
  preamble env (VDict d) = Ok (default VNone (d !! "sound_device"), VInt rate, silence_frames duration) /\
  session env (VDict d) (VInt rate) (silence_frames duration) local_model rt cycles w =
  (result ← (if remote then lift (transcribe_remote env (VDict d))
             else transcribe_local env (VDict d) local_model);
   _ ← os_remove env (temp_name env);
   _ ← print_if (VDict d) (str_strip result);
   _ ← put ("idle", "");
   if truthy result then
     text ← lift (str_strip result);
     lift (process_transcription text (VDict d))
   else mret "")
    {| status_queue := status_queue w ++ [("transcribing", "Transcribing...")];
       disk := {[temp_name env]} ∪ disk w;
       stack_traces := stack_traces w |}.
Proof.
  intros ([sound Hsound] & Hrate & Hduration & [print Hprint] & (use_api & Huse & Hyes))
         (Hvad & Hopen & Hquery & Hclose & Hcreate & Hwrite & Hunlink) Hname Hloop.
  pose proof (subscript_dict _ _ _ Hprint) as Hflag.
  split.
  - unfold preamble.
    rewrite (truthy_dict _ _ _ Hsound).
    rewrite (subscript_dict _ _ _ Hsound), (subscript_dict _ _ _ Hrate),
      (subscript_dict _ _ _ Hduration), Hvad, Hsound. reflexivity.
  - assert (capture env (VDict d) (VInt rate) (silence_frames duration) rt cycles w
            = (Ok (recording st), w)) as Hcapture.
    { unfold capture, with_stream.
      rewrite (bind_ok (lift (as_int (VInt rate))) _ w rate w eq_refl).
      rewrite Hopen, Hclose.
      rewrite (bind_ok (lift (call (query_devices env))) _ w device w)
        by (unfold lift; rewrite Hquery; reflexivity).
      rewrite (bind_ok _ _ w () w (print_if_ok _ _ _ _ _ Hflag Hname)).
      unfold lift. rewrite Hloop. reflexivity. }
    unfold session.
    rewrite (bind_ok _ _ w _ w Hcapture).
    rewrite (bind_ok _ _ w () w (print_if_ok _ _ _ _ _ Hflag eq_refl)).
    rewrite (bind_ok (named_temporary_file env) _ w (temp_name env)
               {| status_queue := status_queue w; disk := {[temp_name env]} ∪ disk w;
                  stack_traces := stack_traces w |})
      by (unfold named_temporary_file; rewrite Hcreate; reflexivity).
    rewrite (bind_ok (lift (call (write_wav env))) _ _ () _)
      by (unfold lift; rewrite Hwrite; reflexivity).
    rewrite (bind_ok (put ("transcribing", "Transcribing...")) _ _ () _ eq_refl).
    cbn [status_queue disk stack_traces].
    rewrite (bind_ok _ _ _ () _ (print_if_ok _ _ _ _ _ Hflag eq_refl)).
    rewrite (bind_ok (lift (subscript (VDict d) "use_api")) _ _ use_api _)
      by (unfold lift; rewrite (subscript_dict _ _ _ Huse); reflexivity).
    rewrite Hyes. destruct remote; [reflexivity|].
    unfold mbind at 1 3. unfold M_bind at 1 3.
    unfold mbind at 1. unfold M_bind at 1.
    unfold lift at 1. rewrite (subscript_dict _ _ _ Huse). reflexivity.
Qed.

Lemma after_transcription env (d : gmap string value) print text out w :
  d !! "print_to_terminal" = Some print ->
  unlink env = Returns () ->
  temp_name env ∉ disk w ->
  (text <> "" -> process_transcription (strip text) (VDict d) = Ok out) ->
  (_ ← os_remove env (temp_name env);
   _ ← print_if (VDict d) (str_strip (VStr text));
   _ ← put ("idle", "");
   if truthy (VStr text) then
     text ← lift (str_strip (VStr text));
     lift (process_transcription text (VDict d))
   else mret "")
    {| status_queue := status_queue w ++ [("transcribing", "Transcribing...")];
       disk := {[temp_name env]} ∪ disk w;
       stack_traces := stack_traces w |}
  = (Ok (if bool_decide (text = "") then "" else out), after_success w).
Proof.
  intros Hprint Hunlink Hfresh Hprocess.
  rewrite (bind_ok (os_remove env (temp_name env)) _ _ ()
             {| status_queue := status_queue w ++ [("transcribing", "Transcribing...")];
                disk := disk w; stack_traces := stack_traces w |}).
  2:{ unfold os_remove. rewrite Hunlink. cbn [disk status_queue stack_traces].
      rewrite bool_decide_eq_true_2
        by (apply elem_of_union; left; apply elem_of_singleton; reflexivity).
      rewrite (remove_created _ _ Hfresh). reflexivity. }
  rewrite (bind_ok _ _ _ () _
             (print_if_ok (VDict d) print (str_strip (VStr text)) (strip text) _
                (subscript_dict _ _ _ Hprint) eq_refl)).
  rewrite (bind_ok (put ("idle", "")) _ _ () _ eq_refl).
  cbn [status_queue disk stack_traces truthy].
  unfold after_success, statuses_of_success. rewrite <- app_assoc.
  destruct (decide (text = "")) as [->|Hne]; [reflexivity|].
  rewrite !bool_decide_eq_false_2 by exact Hne.
  cbn [negb]. unfold str_strip, lift, mbind, M_bind.
  rewrite (Hprocess Hne). reflexivity.
Qed.

(** X16.  The remote path returns what it should.  With a configuration
    that holds the settings the remote path reads and [use_api] true,
    collaborators that all answer, a temporary name that is not taken and
    a recording loop that leaves by [break], the call returns the text of
    the response, stripped and post-processed (the empty string for an
    empty text), the temporary file is gone again and the status queue has
    received the transcribing pair and the idle pair. *)
Theorem remote_session_returns env (d response : gmap string value) local_model rt cycles w
    rate duration device name evs st stopped text out :
  session_configuration d rate duration true ->
  remote_options d ->
  answering env device ->
  subscript device "name" = Ok name ->
  open_audio env = Returns () ->
  api_transcribe env = Returns response ->
  response !! "text" = Some (VStr text) ->
  temp_name env ∉ disk w ->
  loop rate (silence_frames duration) rt entry cycles = (evs, (st, Ok stopped)) ->
  (text <> "" -> process_transcription (strip text) (VDict d) = Ok out) ->
  record_and_transcribe env (VDict d) local_model rt cycles w =
  (Ok (Some (if bool_decide (text = "") then "" else out)), after_success w).
Proof.
  intros Hconfig (api & Hapi & [m Hm] & [l Hl] & [p Hp] & [t Ht]) Henv Hname
         Haudio Hremote Htext Hfresh Hloop Hprocess.
  destruct (session_after_recording env d local_model rt cycles w rate duration true
              device name evs st stopped Hconfig Henv Hname Hloop) as [Hpre Hsession].
  destruct Hconfig as (_ & _ & _ & [print Hprint] & _).
  destruct Henv as (_ & _ & _ & _ & _ & _ & Hunlink).
  rewrite record_and_transcribe_unfold, Hpre. unfold try_except.
  rewrite Hsession.
  assert (transcribe_remote env (VDict d) = Ok (VStr text)) as Hdispatch.
  { unfold transcribe_remote.
    rewrite (subscript_dict _ _ _ Hapi), Haudio, Hremote. cbn -[subscript].
    rewrite (subscript_dict _ _ _ Hm), (subscript_dict _ _ _ Hl),
      (subscript_dict _ _ _ Hp), (subscript_dict _ _ _ Ht). cbn.
    rewrite Htext. reflexivity. }
  rewrite (bind_ok (lift (transcribe_remote env (VDict d))) _ _ (VStr text) _)
    by (unfold lift; rewrite Hdispatch; reflexivity).
  rewrite (after_transcription env d print text out w Hprint Hunlink Hfresh Hprocess).
  reflexivity.
Qed.

Lemma remote_session_returns_witness :
  record_and_transcribe (cooperative (Returns spoken)) (configuration true true)
    false None (utterance 16000) quiet_world
  = (Ok (Some (if bool_decide (" Hello there. " = "") then "" else "Hello there")),
     after_success quiet_world).
Proof.
  apply (remote_session_returns (cooperative (Returns spoken)) _ spoken false None
           (utterance 16000) quiet_world 16000 900
           (VDict (<["name" := VStr "Microphone"]> ∅)) (VStr "Microphone")
           (loop 16000 (silence_frames 900) None entry (utterance 16000)).1
           (loop 16000 (silence_frames 900) None entry (utterance 16000)).2.1
           false " Hello there. " "Hello there").
  - split; [vm_compute; eauto|].
    split; [vm_compute; reflexivity|].
    split; [vm_compute; reflexivity|].
    split; [vm_compute; eauto|].
    exists (VBool true). split; vm_compute; reflexivity.
  - exists (<["model" := VStr "whisper-1"]>
              (<["language" := VNone]>
                 (<["initial_prompt" := VNone]>
                    (<["temperature" := VInt 0]> ∅)))).
    split; [vm_compute; reflexivity|].
    repeat split; vm_compute; eauto.
  - repeat split.
  - reflexivity.
  - reflexivity.
  - reflexivity.
  - reflexivity.
  - apply not_elem_of_empty.
  - vm_compute. reflexivity.
  - intros _. vm_compute. reflexivity.
Defined.

(** X17.  The local path returns what it should.  With [use_api] false, a
    configuration that holds the options the local transcription reads,
    collaborators that answer and a loop that leaves by [break], the call
    returns the texts of the segments joined in order, stripped and
    post-processed (the empty string when there is no text); a model is
    built only when none was passed. *)
Theorem local_session_returns env (d : gmap string value) local_model rt cycles w
    rate duration device name evs st stopped segments out :
  session_configuration d rate duration false ->
  local_options d ->
  answering env device ->
  subscript device "name" = Ok name ->
  (local_model = false -> create_local_model env (VDict d) = Ok ()) ->
  local_transcribe env = Returns segments ->
  temp_name env ∉ disk w ->
  loop rate (silence_frames duration) rt entry cycles = (evs, (st, Ok stopped)) ->
  (String.concat "" segments <> "" ->
   process_transcription (strip (String.concat "" segments)) (VDict d) = Ok out) ->
  record_and_transcribe env (VDict d) local_model rt cycles w =
  (Ok (Some (if bool_decide (String.concat "" segments = "") then "" else out)),
   after_success w).
Proof.
  intros Hconfig (options & Hoptions & [l Hl] & [p Hp] & [c Hc] & [t Ht] & [f Hf])
         Henv Hname Hmodel Hlocal Hfresh Hloop Hprocess.
  destruct (session_after_recording env d local_model rt cycles w rate duration false
              device name evs st stopped Hconfig Henv Hname Hloop) as [Hpre Hsession].
  destruct Hconfig as (_ & _ & _ & [print Hprint] & _).
  destruct Henv as (_ & _ & _ & _ & _ & _ & Hunlink).
  rewrite record_and_transcribe_unfold, Hpre. unfold try_except.
  rewrite Hsession.
  pose proof (subscript_dict _ _ _ Hprint) as Hflag.
  assert (forall w1, transcribe_local env (VDict d) local_model w1
                     = (Ok (VStr (String.concat "" segments)), w1)) as Hdispatch.
  { intros w1. unfold transcribe_local.
    rewrite (bind_ok _ _ w1 () w1).
    2:{ destruct local_model; [reflexivity|].
        rewrite (bind_ok _ _ w1 () w1
                   (print_if_ok (VDict d) print (Ok ()) () w1 Hflag eq_refl)).
        rewrite (bind_ok (lift (create_local_model env (VDict d))) _ w1 () w1)
          by (unfold lift; rewrite Hmodel; reflexivity).
        apply (print_if_ok (VDict d) print (Ok ()) () w1 Hflag eq_refl). }
    unfold lift, mbind, M_bind, mret, M_ret.
    rewrite (subscript_dict _ _ _ Hoptions), (subscript_dict _ _ _ Hl),
      (subscript_dict _ _ _ Hp), (subscript_dict _ _ _ Hc),
      (subscript_dict _ _ _ Ht), (subscript_dict _ _ _ Hf), Hlocal.
    reflexivity. }
  rewrite (bind_ok _ _ _ _ _ (Hdispatch _)).
  rewrite (after_transcription env d print _ out w Hprint Hunlink Hfresh Hprocess).
  reflexivity.
Qed.

Lemma local_session_returns_witness :
  record_and_transcribe textless_api (configuration false true)
    false None (utterance 16000) quiet_world
  = (Ok (Some (if bool_decide (String.concat "" [" Hello"; " world."] = "")
               then "" else "Hello world")),
     after_success quiet_world).
Proof.
  apply (local_session_returns textless_api _ false None
           (utterance 16000) quiet_world 16000 900
           (VDict (<["name" := VStr "Microphone"]> ∅)) (VStr "Microphone")
           (loop 16000 (silence_frames 900) None entry (utterance 16000)).1
           (loop 16000 (silence_frames 900) None entry (utterance 16000)).2.1
           false [" Hello"; " world."] "Hello world").
  - split; [vm_compute; eauto|].
    split; [vm_compute; reflexivity|].
    split; [vm_compute; reflexivity|].
    split; [vm_compute; eauto|].
    exists (VBool false). split; vm_compute; reflexivity.
  - exists (<["model" := VStr "base"]>
              (<["device" := VStr "auto"]>
                 (<["compute_type" := VStr "auto"]>
                    (<["language" := VNone]>
                       (<["initial_prompt" := VNone]>
                          (<["condition_on_previous_text" := VBool true]>
                             (<["temperature" := VInt 0]>
                                (<["vad_filter" := VBool false]> ∅)))))))).
    split; [vm_compute; reflexivity|].
    repeat split; vm_compute; eauto.
  - repeat split.
  - reflexivity.
  - intros _. vm_compute. reflexivity.
  - reflexivity.
  - apply not_elem_of_empty.
  - vm_compute. reflexivity.
  - intros _. vm_compute. reflexivity.
Defined.

(** X18.  A backend that fails leaks the recording.  Once the recording
    is written to the temporary file, an exception from the remote
    transcription (a missing option, the file that cannot be reopened, the
    API call) or from building the local model sends the call to its
    handler: it returns [None] after the transcribing pair and the error
    pair, and the temporary file stays on disk. *)
Theorem backend_failure_leaks_file env (d : gmap string value) local_model rt cycles w
    rate duration remote device name evs st stopped e :
  session_configuration d rate duration remote ->
  answering env device ->
  subscript device "name" = Ok name ->
  loop rate (silence_frames duration) rt entry cycles = (evs, (st, Ok stopped)) ->
  (if remote then transcribe_remote env (VDict d) = Exc e
   else local_model = false /\ create_local_model env (VDict d) = Exc e) ->
  record_and_transcribe env (VDict d) local_model rt cycles w = (Ok None, after_leak env w).
Proof.
  intros Hconfig Henv Hname Hloop Hfail.
  destruct (session_after_recording env d local_model rt cycles w rate duration remote
              device name evs st stopped Hconfig Henv Hname Hloop) as [Hpre Hsession].
  destruct Hconfig as (_ & _ & _ & [print Hprint] & _).
  pose proof (subscript_dict _ _ _ Hprint) as Hflag.
  rewrite record_and_transcribe_unfold, Hpre. unfold try_except.
  rewrite Hsession.
  destruct remote.
  - rewrite (bind_exc (lift (transcribe_remote env (VDict d))) _ _ e _)
      by (unfold lift; rewrite Hfail; reflexivity).
    unfold after_leak. cbn. rewrite <- app_assoc. reflexivity.
  - destruct Hfail as [-> Hfail].
    erewrite (bind_exc (transcribe_local env (VDict d) false) _ _ e).
    2:{ unfold transcribe_local.
        apply bind_exc.
        rewrite (bind_ok _ _ _ () _
                   (print_if_ok (VDict d) print (Ok ()) () _ Hflag eq_refl)).
        apply bind_exc. unfold lift. rewrite Hfail. reflexivity. }
    unfold after_leak. cbn. rewrite <- app_assoc. reflexivity.
Qed.

Lemma backend_failure_leaks_file_witness :
  record_and_transcribe unreachable_api (configuration true true)
    false None (utterance 16000) quiet_world
  = (Ok None, after_leak unreachable_api quiet_world).
Proof.
  apply (backend_failure_leaks_file unreachable_api _ false None
           (utterance 16000) quiet_world 16000 900 true
           (VDict (<["name" := VStr "Microphone"]> ∅)) (VStr "Microphone")
           (loop 16000 (silence_frames 900) None entry (utterance 16000)).1
           (loop 16000 (silence_frames 900) None entry (utterance 16000)).2.1
           false (ExternalError "APIConnectionError")).
  - split; [vm_compute; eauto|].
    split; [vm_compute; reflexivity|].
    split; [vm_compute; reflexivity|].
    split; [vm_compute; eauto|].
    exists (VBool true). split; vm_compute; reflexivity.
  - repeat split.
  - reflexivity.
  - vm_compute. reflexivity.
  - vm_compute. reflexivity.
Defined.

(** ** While the loop is running *)

Lemma bind_pending {A B} (m : M A) (k : A -> M B) w w1 :
  m w = (Pending, w1) -> (m ≫= k) w = (Pending, w1).
Proof. unfold mbind, M_bind. intros ->. reflexivity. Qed.

Lemma print_if_guarded {A} config flag (arguments : res A) w :
  subscript config "print_to_terminal" = Ok flag ->
  (truthy flag = true -> exists x, arguments = Ok x) ->
  print_if config arguments w = (Ok (), w).
Proof.
  intros Hflag Hargs. unfold print_if, lift, mbind, M_bind. rewrite Hflag.
  destruct (truthy flag); [|reflexivity].
  destruct (Hargs eq_refl) as [x ->]. reflexivity.
Qed.

(** X19.  Nothing happens before the loop ends.  Once the set-up has
    succeeded, the stream is open and the device was queried, a call whose
    recording loop has not left [while True] has not returned, and it has
    pushed nothing to the status queue, created no file and logged
    nothing: the transcribing pair and the temporary file come after the
    loop. *)
Theorem nothing_before_the_loop_ends env config local_model rt cycles w
    sound sample_rate rate thr device flag :
  preamble env config = Ok (sound, sample_rate, thr) ->
  as_int sample_rate = Ok rate ->
  open_stream env = Returns () ->
  query_devices env = Returns device ->
  subscript config "print_to_terminal" = Ok flag ->
  (truthy flag = true -> exists name, subscript device "name" = Ok name) ->
  (loop rate thr rt entry cycles).2.2 = Pending ->
  record_and_transcribe env config local_model rt cycles w = (Pending, w).
Proof.
  intros Hpre Hrate Hopen Hquery Hflag Hname Hloop.
  rewrite record_and_transcribe_unfold, Hpre. unfold try_except, session.
  assert (capture env config sample_rate thr rt cycles w = (Pending, w)) as Hcapture.
  { unfold capture, with_stream.
    rewrite (bind_ok (lift (as_int sample_rate)) _ w rate w)
      by (unfold lift; rewrite Hrate; reflexivity).
    rewrite Hopen.
    rewrite (bind_ok (lift (call (query_devices env))) _ w device w)
      by (unfold lift; rewrite Hquery; reflexivity).
    rewrite (bind_ok _ _ w () w (print_if_guarded _ _ _ _ Hflag Hname)).
    unfold lift.
    destruct (loop rate thr rt entry cycles) as [evs [st r]].
    simpl in Hloop. subst r. reflexivity. }
  rewrite (bind_pending _ _ _ _ Hcapture). reflexivity.
Qed.

Lemma nothing_before_the_loop_ends_witness :
  record_and_transcribe textless_api (configuration true true) false None
    (leading_silence 16000) quiet_world
  = (Pending, quiet_world).
Proof.
  apply (nothing_before_the_loop_ends textless_api (configuration true true) false None
           (leading_silence 16000) quiet_world VNone (VInt 16000) 16000
           (silence_frames 900) (VDict (<["name" := VStr "Microphone"]> ∅)) (VBool true)).
  - vm_compute. reflexivity.
  - reflexivity.
  - reflexivity.
  - reflexivity.
  - vm_compute. reflexivity.
  - intros _. exists (VStr "Microphone"). vm_compute. reflexivity.
  - vm_compute. reflexivity.
Defined.

(** ** The hotkey during the first second *)

Lemma stop_check_short rate thr rt st c :
  Z.of_nat (length (recording st)) < rate ->
  stop_check rate thr rt st c = (st, Ok Continue).
Proof.
  intros Hshort. unfold stop_check.
  destruct (Z.ltb_spec (Z.of_nat (length (recording st))) rate); [|lia].
  destruct (_ || _); reflexivity.
Qed.

Lemma pass_same_audio rate thr rt st c c' ev st1 sg :
  pushed c = pushed c' ->
  is_speech c = is_speech c' ->
  pass rate thr rt st c' = (ev, (st1, sg)) ->
  Z.of_nat (length (recording st1)) < rate ->
  pass rate thr rt st c = (ev, (st1, sg)).
Proof.
  intros Hpushed Hvad. unfold pass. rewrite Hpushed, Hvad.
  destruct (_ <? _); [trivial|].
  destruct (is_speech c') as [speech|e]; [|trivial].
  intros [= <- H] Hshort.
  pose proof (stop_check_locals _ _ _ _ _ _ _ H) as (_ & Hrec & _).
  rewrite Hrec in Hshort.
  rewrite stop_check_short in H by exact Hshort.
  rewrite stop_check_short by exact Hshort.
  injection H as <- <-. reflexivity.
Qed.

(** X20.  During the first second the hotkey has no effect at all.  Two
    runs that are fed the same samples and the same classifications are
    the same run, whatever the cancel flag answers in either, as long as
    the recording they end with is shorter than [sample_rate] samples: a
    press is not remembered for later. *)
Theorem early_hotkey_has_no_effect rate thr rt cycles cycles' : forall st,
  Forall2 (fun c c' => pushed c = pushed c' /\ is_speech c = is_speech c') cycles cycles' ->
  Z.of_nat (length (recording (loop rate thr rt st cycles').2.1)) < rate ->
  loop rate thr rt st cycles = loop rate thr rt st cycles'.
Proof.
  intros st Hsame. revert st.
  induction Hsame as [|c c' cycles cycles' [Hpushed Hvad] _ IH]; intros st Hshort;
    [reflexivity|].
  cbn [loop] in *.
  destruct (pass rate thr rt st c') as [ev [st1 sg]] eqn:Hpass.
  assert (Z.of_nat (length (recording st1)) < rate) as Hshort1.
  { destruct sg as [[|stopped]|e|]; try exact Hshort.
    destruct (loop rate thr rt st1 cycles') as [evs [st2 r]] eqn:Hloop.
    apply loop_recording_prefix, prefix_length in Hloop. simpl in Hshort. lia. }
  rewrite (pass_same_audio _ _ _ _ _ _ _ _ _ Hpushed Hvad Hpass Hshort1).
  destruct sg as [[|stopped]|e|]; try reflexivity.
  rewrite IH; [reflexivity|].
  destruct (loop rate thr rt st1 cycles') as [evs [st2 r]]. exact Hshort.
Qed.

Lemma early_hotkey_has_no_effect_witness :
  loop 100 (silence_frames 900) None entry
    (speech_cycle 100 :: replicate 40 (with_hotkey (silent_cycle 100)))
  = loop 100 (silence_frames 900) None entry
      (speech_cycle 100 :: replicate 40 (silent_cycle 100)).
Proof.
  apply (early_hotkey_has_no_effect 100 (silence_frames 900) None
           (speech_cycle 100 :: replicate 40 (with_hotkey (silent_cycle 100)))
           (speech_cycle 100 :: replicate 40 (silent_cycle 100)) entry).
  - constructor; [split; reflexivity|].
    apply Forall2_replicate. split; reflexivity.
  - vm_compute. reflexivity.
Defined.
